(** * get_wikidata_for_osmwiki: a shallow embedding and its properties

    The script queries Wikidata for country properties, reconciles the
    query results into one table keyed by the ISO 3166-1 alpha-2 code and
    renders the table as a Lua data section for the OpenStreetMap wiki.

    Python [str] values are modelled as [string] (UTF-8 bytes: the
    byte-wise lexicographic order of UTF-8 is the code point order Python
    compares strings by), Python dicts with string keys as [gmap string],
    a pandas DataFrame as a set of column names with a list of records. *)

From Stdlib Require Import ZArith QArith Qround String Ascii List Bool Lia.
From Stdlib Require Import SpecFloat DecimalString Lqa.
From stdpp Require Import gmap strings list fin_maps sorting.

Local Open Scope string_scope.

(** ** Exceptions *)

Inductive error :=
  | KeyError (key : string)
  | ValueError (msg : string)
  | AttributeError (msg : string)
  | RemoteServiceError.

Inductive res (A : Type) :=
  | Ok (a : A)
  | Raise (e : error).
Arguments Ok {A} a.
Arguments Raise {A} e.

#[global] Instance res_ret : MRet res := λ A a, Ok a.
#[global] Instance res_bind : MBind res := λ A B k m,
  match m with
  | Ok a => k a
  | Raise e => Raise e
  end.

Fixpoint mapM {A B} (f : A → res B) (l : list A) : res (list B) :=
  match l with
  | [] => Ok []
  | x :: l' => y ← f x; ys ← mapM f l'; Ok (y :: ys)
  end.

Definition is_ok {A} (m : res A) : bool :=
  match m with Ok _ => true | Raise _ => false end.

(** ** The order of Python strings *)

Module StrOrd.

Lemma ascii_compare_refl a : Ascii.compare a a = Eq.
Proof. unfold Ascii.compare. apply N.compare_refl. Qed.

Lemma ascii_compare_trans c a b d :
  Ascii.compare a b = c → Ascii.compare b d = c → Ascii.compare a d = c.
Proof.
  unfold Ascii.compare. destruct c; intros H1 H2.
  - apply N.compare_eq_iff in H1, H2. apply N.compare_eq_iff. congruence.
  - rewrite N.compare_lt_iff in *. lia.
  - rewrite N.compare_gt_iff in *. lia.
Qed.

Lemma compare_refl s : String.compare s s = Eq.
Proof. induction s as [|a s IH]; simpl; [done|]. by rewrite ascii_compare_refl. Qed.

Lemma compare_lt_trans s1 : ∀ s2 s3,
  String.compare s1 s2 = Lt → String.compare s2 s3 = Lt →
  String.compare s1 s3 = Lt.
Proof.
  induction s1 as [|a s1 IH]; intros [|b s2] [|c s3]; simpl; try done.
  destruct (Ascii.compare a b) eqn:Hab; try done;
    destruct (Ascii.compare b c) eqn:Hbc; try done; intros H1 H2.
  - apply Ascii.compare_eq_iff in Hab, Hbc. subst.
    rewrite ascii_compare_refl. eauto.
  - apply Ascii.compare_eq_iff in Hab. subst. by rewrite Hbc.
  - apply Ascii.compare_eq_iff in Hbc. subst. by rewrite Hab.
  - by rewrite (ascii_compare_trans Lt a b c).
Qed.

Lemma leb_refl s : String.leb s s = true.
Proof. unfold String.leb. by rewrite compare_refl. Qed.

Lemma leb_trans s1 s2 s3 :
  String.leb s1 s2 = true → String.leb s2 s3 = true → String.leb s1 s3 = true.
Proof.
  unfold String.leb.
  destruct (String.compare s1 s2) eqn:H12; try done;
    destruct (String.compare s2 s3) eqn:H23; try done; intros _ _.
  - apply String.compare_eq_iff in H12, H23. subst. by rewrite compare_refl.
  - apply String.compare_eq_iff in H12. subst. by rewrite H23.
  - apply String.compare_eq_iff in H23. subst. by rewrite H12.
  - by rewrite (compare_lt_trans s1 s2 s3).
Qed.

Lemma leb_false_lt s1 s2 : String.leb s1 s2 = false → String.leb s2 s1 = true.
Proof. intros H. destruct (String.leb_total s1 s2); congruence. Qed.

End StrOrd.

(** ** Sorting, as pandas delegates it to numpy

    [sort_values] sorts with numpy's [argsort] of the default kind
    (quicksort), which promises a sorted permutation and no more; pandas
    documents only mergesort and stable as stable kinds. The sort is
    therefore an interface: what holds of [sort_values] holds for every
    implementation of it, and stability is a separate property. *)

Definition le_total {A} (leb : A → A → bool) : Prop := ∀ x y, leb x y ∨ leb y x.
Definition le_trans {A} (leb : A → A → bool) : Prop :=
  ∀ x y z, leb x y → leb y z → leb x z.

Record SortKind := {
  np_sort : ∀ A : Type, (A → A → bool) → list A → list A;
  np_sort_perm : ∀ A (leb : A → A → bool) l, np_sort A leb l ≡ₚ l;
  np_sort_sorted : ∀ A (leb : A → A → bool) l,
    le_total leb → le_trans leb → StronglySorted (λ x y, leb x y) (np_sort A leb l)
}.
Arguments np_sort _ {A} leb l.


(** Insertion sort: what numpy's quicksort does on up to 16 elements. *)
Fixpoint insert_sorted {A} (leb : A → A → bool) (x : A) (l : list A) : list A :=
  match l with
  | [] => [x]
  | y :: l' => if leb x y then x :: l else y :: insert_sorted leb x l'
  end.

Definition insertion_sort {A} (leb : A → A → bool) (l : list A) : list A :=
  foldr (insert_sorted leb) [] l.

Lemma insert_sorted_perm {A} (leb : A → A → bool) x l :
  insert_sorted leb x l ≡ₚ x :: l.
Proof.
  induction l as [|y l IH]; simpl; [done|].
  destruct (leb x y); [done|]. rewrite IH. apply Permutation_swap.
Qed.

Lemma insertion_sort_perm {A} (leb : A → A → bool) l : insertion_sort leb l ≡ₚ l.
Proof.
  induction l as [|x l IH]; simpl; [done|].
  rewrite insert_sorted_perm. by rewrite IH.
Qed.

Lemma insert_sorted_sorted {A} (leb : A → A → bool) x l :
  le_total leb → le_trans leb →
  StronglySorted (λ x y, leb x y) l →
  StronglySorted (λ x y, leb x y) (insert_sorted leb x l).
Proof.
  intros Htot Htr. induction 1 as [|y l Hs IH Hall]; simpl.
  - repeat constructor.
  - destruct (leb x y) eqn:Hxy.
    + constructor; [by constructor|].
      constructor; [by rewrite Hxy|].
      eapply Forall_impl; [exact Hall|].
      intros w Hw. eapply Htr; [|exact Hw]. by rewrite Hxy.
    + constructor; [done|].
      rewrite insert_sorted_perm. constructor; [|done].
      destruct (Htot x y) as [H|H]; [by rewrite Hxy in H|done].
Qed.

Lemma insertion_sort_sorted {A} (leb : A → A → bool) l :
  le_total leb → le_trans leb →
  StronglySorted (λ x y, leb x y) (insertion_sort leb l).
Proof.
  intros Htot Htr. induction l as [|x l IH]; simpl; [constructor|].
  by apply insert_sorted_sorted.
Qed.

Definition stable_kind : SortKind := {|
  np_sort := @insertion_sort;
  np_sort_perm := @insertion_sort_perm;
  np_sort_sorted := @insertion_sort_sorted
|}.



(** ** DataFrames

    A frame built from query results holds strings only. The order of
    the columns matters for the CSV layout alone and is not kept. *)

Record DataFrame := mkDF {
  columns : gset string;
  records : list (gmap string string)
}.

(** [row[c]] for a record of a frame that has column [c]. *)
Definition cell (r : gmap string string) (c : string) : string :=
  default "" (r !! c).

(** [pd.DataFrame(rows).fillna("")]: the columns are the keys of all the
    rows, a key missing from a row is NaN and then filled with [""]. *)
Definition fillna (cols : gset string) (r : gmap string string) : gmap string string :=
  r ∪ gset_to_gmap "" cols.

Definition DataFrame_fillna (rows : list (gmap string string)) : DataFrame :=
  let cols := ⋃ (dom <$> rows) in
  mkDF cols (fillna cols <$> rows).

(** [df[c]] *)
Definition getitem (df : DataFrame) (c : string) : res (list string) :=
  if decide (c ∈ columns df) then Ok ((λ r, cell r c) <$> records df)
  else Raise (KeyError c).

(** [df[c] = values], for a column of values computed from the frame. *)
Definition setitem (df : DataFrame) (c : string) (values : list string) : DataFrame :=
  mkDF ({[c]} ∪ columns df) (zip_with (λ r v, <[c:=v]> r) (records df) values).

(** [df[df[c] != ""]] *)
Definition drop_empty (df : DataFrame) (c : string) : res DataFrame :=
  if decide (c ∈ columns df)
  then Ok (mkDF (columns df) (filter (λ r, cell r c ≠ "") (records df)))
  else Raise (KeyError c).

(** [df.sort_values(c, ascending=...)]: descending order is numpy's
    ascending sort of the reversed frame, reversed. *)
Definition row_leb (c : string) (r1 r2 : gmap string string) : bool :=
  String.leb (cell r1 c) (cell r2 c).

Definition sort_values (K : SortKind) (df : DataFrame) (c : string) (ascending : bool)
  : res DataFrame :=
  if decide (c ∈ columns df)
  then Ok (mkDF (columns df)
             (if ascending then np_sort K (row_leb c) (records df)
              else rev (np_sort K (row_leb c) (rev (records df)))))
  else Raise (KeyError c).

(** [df.groupby(c).first().reset_index()]: one row per value of [c], the
    groups in ascending order of [c]. [first] takes, column by column, the
    first value of the group that is not null; no cell is null after
    [fillna], so that is the first row of the group. *)
Definition group_keys (c : string) (rows : list (gmap string string)) : list string :=
  insertion_sort String.leb (remove_dups ((λ r, cell r c) <$> rows)).

Definition first_of (c k : string) (rows : list (gmap string string))
  : option (gmap string string) :=
  head (filter (λ r, cell r c = k) rows).

Definition groupby_first (df : DataFrame) (c : string) : res DataFrame :=
  if decide (c ∈ columns df)
  then Ok (mkDF (columns df)
             (omap (λ k, first_of c k (records df)) (group_keys c (records df))))
  else Raise (KeyError c).

(** [{r[kc]: r[vc] for r in df.to_dict(orient='records')}] *)
Definition to_mapping (df : DataFrame) (kc vc : string) : res (gmap string string) :=
  foldl (λ acc r,
           d ← acc;
           k ← (if decide (kc ∈ columns df) then Ok (cell r kc) else Raise (KeyError kc));
           v ← (if decide (vc ∈ columns df) then Ok (cell r vc) else Raise (KeyError vc));
           Ok (<[k:=v]> d))
        (Ok ∅) (records df).

(** ** Numerals, as Python reads and writes them

    Only ASCII is modelled: [int] and [float] also accept the decimal
    digits and the white space of other scripts, which no Wikidata
    literal contains. *)

Definition is_digit (c : ascii) : bool :=
  (48 <=? nat_of_ascii c)%nat && (nat_of_ascii c <=? 57)%nat.

Definition is_space (c : ascii) : bool :=
  let n := nat_of_ascii c in
  ((9 <=? n) && (n <=? 13) || (28 <=? n) && (n <=? 32))%nat.

Fixpoint lstrip (l : list ascii) : list ascii :=
  match l with
  | c :: l' => if is_space c then lstrip l' else l
  | [] => []
  end.

Definition strip (l : list ascii) : list ascii := rev (lstrip (rev (lstrip l))).

(** Underscores may only stand between two digits; they are dropped. *)
Fixpoint drop_underscores (prev : ascii) (l : list ascii) : option (list ascii) :=
  match l with
  | [] => if Ascii.eqb prev "_" then None else Some []
  | c :: l' =>
      if Ascii.eqb c "_" then
        if is_digit prev then drop_underscores c l' else None
      else if Ascii.eqb prev "_" && negb (is_digit c) then None
      else cons c <$> drop_underscores c l'
  end.

Fixpoint span_digits (l : list ascii) : list ascii * list ascii :=
  match l with
  | c :: l' =>
      if is_digit c then let '(ds, r) := span_digits l' in (c :: ds, r) else ([], l)
  | [] => ([], [])
  end.

Definition Z_of_digits (ds : list ascii) : Z :=
  foldl (λ acc c, 10 * acc + (Z.of_nat (nat_of_ascii c) - 48))%Z 0%Z ds.

Definition split_sign (l : list ascii) : bool * list ascii :=
  match l with
  | "-"%char :: l' => (true, l')
  | "+"%char :: l' => (false, l')
  | _ => (false, l)
  end.

(** [int(s)] *)
Definition int_of_str (s : string) : res Z :=
  match drop_underscores "000" (strip (list_ascii_of_string s)) with
  | None => Raise (ValueError s)
  | Some l =>
      let '(neg, l') := split_sign l in
      match span_digits l' with
      | ((_ :: _) as ds, []) => Ok (if neg then - Z_of_digits ds else Z_of_digits ds)%Z
      | _ => Raise (ValueError s)
      end
  end.

Definition str_of_Z (z : Z) : string :=
  DecimalString.NilZero.string_of_int (Z.to_int z).

(** Thousands separators: a comma before every group of three digits,
    counted from the right. *)
Fixpoint commas_rev (l : list ascii) : list ascii :=
  match l with
  | a :: b :: c :: (_ :: _) as rest => a :: b :: c :: ","%char :: commas_rev rest
  | _ => l
  end.

Definition group3 (ds : list ascii) : list ascii := rev (commas_rev (rev ds)).

(** [f'{n:,}'] for an int: the sign, then the grouped digits *)
Definition format_int_comma (n : Z) : string :=
  string_of_list_ascii
    ((if (n <? 0)%Z then ["-"%char] else [])
       ++ group3 (list_ascii_of_string (str_of_Z (Z.abs n)))).

(** ** Python floats: IEEE 754 binary64, computed exactly

    A float is a [spec_float] of the Standard Library's specification of
    binary64 (precision 53, infinities at exponent 1024); conversions go
    through exact rationals. *)

Module Float.

Abbreviation float := spec_float.
Definition prec : Z := 53.
Definition emax : Z := 1024.

(** The float nearest to [n / d], ties to even. *)
Definition of_ratio (neg : bool) (n d : positive) : float :=
  let '(mz, ez, lz) := SFdiv_core_binary prec emax (Zpos n) 0 (Zpos d) 0 in
  binary_round_aux prec emax neg mz ez lz.

Definition of_Q (neg : bool) (q : Q) : float :=
  match Qnum q with
  | Zpos n => of_ratio neg n (Qden q)
  | _ => S754_zero neg
  end.

Definition of_Z (z : Z) : float := binary_normalize prec emax z 0 false.

(** The magnitude of a finite float, as an exact rational. *)
Definition pow2 (e : Z) : Q :=
  match e with
  | Zneg p => 1 # (2 ^ p)
  | _ => inject_Z (2 ^ e)
  end.

Definition pow10 (e : Z) : Q :=
  match e with
  | Zneg p => 1 # (10 ^ p)
  | _ => inject_Z (10 ^ e)
  end.

Definition magnitude (m : positive) (e : Z) : Q := (inject_Z (Zpos m) * pow2 e)%Q.

(** [x >= y] on floats; false when either is NaN. *)
Definition geb (x y : float) : bool := SFleb y x.

(** [numpy.round] with no decimals: the nearest integer, ties to even. *)
Definition round_half_even (q : Q) : Z :=
  let f := Qfloor q in
  match Qcompare (q - inject_Z f) (1 # 2) with
  | Lt => f
  | Gt => f + 1
  | Eq => if Z.even f then f else f + 1
  end.

Definition np_round (x : float) : float :=
  match x with
  | S754_finite s m e =>
      if (0 <=? e)%Z then x
      else let n := round_half_even (magnitude m e) in
           binary_normalize prec emax (if s then - n else n) 0 s
  | _ => x
  end.

(** *** [repr]: the shortest decimal string that reads back as the float *)

Definition float_eqb (x y : float) : bool :=
  match x, y with
  | S754_zero a, S754_zero b => Bool.eqb a b
  | S754_infinity a, S754_infinity b => Bool.eqb a b
  | S754_nan, S754_nan => true
  | S754_finite a m e, S754_finite b m' e' =>
      Bool.eqb a b && (m =? m')%positive && (e =? e')%Z
  | _, _ => false
  end.

(** The [p] with [10^(p-1) <= q < 10^p], for [q > 0]. *)
Fixpoint decpt_from (fuel : nat) (q : Q) (p : Z) : Z :=
  match fuel with
  | O => p
  | S fuel' => if Qle_bool (pow10 p) q then decpt_from fuel' q (p + 1)%Z else p
  end.

Definition decpt (q : Q) : Z :=
  let t := (Z.log2 (Qnum q) - Z.log2 (Zpos (Qden q)) - 1)%Z in
  decpt_from 8 q ((t * 30103) / 100000)%Z.

(** The nearest of the [n]-digit decimals next to [q] that read back as
    [x], as a numeral [D] and an exponent [k] ([D * 10^k]). *)
Definition candidate (x : float) (q : Q) (p : Z) (n : Z) : option (Z * Z) :=
  let k := (p - n)%Z in
  let lo := Qfloor (q / pow10 k) in
  let hi := (lo + 1)%Z in
  let back d := float_eqb (of_Q false (inject_Z d * pow10 k)) x in
  match back lo, back hi with
  | false, false => None
  | true, false => Some (lo, k)
  | false, true => Some (hi, k)
  | true, true =>
      match Qcompare (q - inject_Z lo * pow10 k) (inject_Z hi * pow10 k - q) with
      | Lt => Some (lo, k)
      | Gt => Some (hi, k)
      | Eq => Some (if Z.even lo then lo else hi, k)
      end
  end.

Fixpoint shortest_from (fuel : nat) (x : float) (q : Q) (p : Z) (n : Z) : Z * Z :=
  match fuel with
  | O => (Qfloor (q / pow10 (p - n)), (p - n)%Z)
  | S fuel' =>
      match candidate x q p n with
      | Some c => c
      | None => shortest_from fuel' x q p (n + 1)%Z
      end
  end.

Fixpoint strip_zeros_rev (l : list ascii) : list ascii :=
  match l with
  | "0"%char :: l' => strip_zeros_rev l'
  | _ => l
  end.

(** The digits [d1 d2 ... dn] and the position of the decimal point of a
    positive finite float: its value is [0.d1...dn * 10^point]. *)
Definition digits_of (m : positive) (e : Z) : list ascii * Z :=
  let q := magnitude m e in
  let '(d, k) := shortest_from 17 (S754_finite false m e) q (decpt q) 1 in
  let ds := list_ascii_of_string (str_of_Z d) in
  (rev (strip_zeros_rev (rev ds)), (Z.of_nat (length ds) + k)%Z).

Definition zeros (n : Z) : list ascii := replicate (Z.to_nat n) "0"%char.

Definition exponent_str (e : Z) : list ascii :=
  let ds := list_ascii_of_string (str_of_Z (Z.abs e)) in
  (if (e <? 0)%Z then "-"%char else "+"%char)
    :: (if (length ds <? 2)%nat then "0"%char :: ds else ds).

Definition repr_finite (m : positive) (e : Z) : list ascii :=
  let '(ds, point) := digits_of m e in
  let n := Z.of_nat (length ds) in
  if ((-4 <? point) && (point <=? 16))%Z then
    if (point <=? 0)%Z then "0"%char :: "."%char :: zeros (- point) ++ ds
    else if (n <=? point)%Z then ds ++ zeros (point - n) ++ ["."%char; "0"%char]
    else take (Z.to_nat point) ds ++ "."%char :: drop (Z.to_nat point) ds
  else
    take 1 ds ++ (if (1 <? n)%Z then "."%char :: drop 1 ds else [])
      ++ "e"%char :: exponent_str (point - 1).

Definition sign_str (neg : bool) : list ascii := if neg then ["-"%char] else [].

Definition repr (x : float) : list ascii :=
  match x with
  | S754_nan => list_ascii_of_string "nan"
  | S754_infinity s => sign_str s ++ list_ascii_of_string "inf"
  | S754_zero s => sign_str s ++ list_ascii_of_string "0.0"
  | S754_finite s m e => sign_str s ++ repr_finite m e
  end.

(** [f'{x:,}'] for a float: [repr] with the integer digits grouped *)
Definition format_comma (x : float) : string :=
  let '(neg, l) := split_sign (repr x) in
  let '(ds, rest) := span_digits l in
  string_of_list_ascii (sign_str neg ++ group3 ds ++ rest)%list.

(** ['{:.1f}'.format(x)]: one decimal, of the exact value, ties to even *)
Definition format_fixed1 (x : float) : string :=
  match x with
  | S754_finite s m e =>
      let n := round_half_even (magnitude m e * inject_Z 10) in
      string_of_list_ascii (sign_str s)
        ++ str_of_Z (n / 10) ++ "." ++ str_of_Z (n mod 10)
  | S754_zero s => string_of_list_ascii (sign_str s) ++ "0.0"
  | _ => string_of_list_ascii (repr x)
  end.

(** *** [float(s)] *)

Definition lower (c : ascii) : ascii :=
  let n := nat_of_ascii c in
  if ((65 <=? n) && (n <=? 90))%nat then ascii_of_nat (n + 32) else c.

Definition parse_exponent (l : list ascii) : option Z :=
  match l with
  | [] => Some 0%Z
  | c :: l' =>
      if Ascii.eqb (lower c) "e" then
        let '(neg, l'') := split_sign l' in
        match span_digits l'' with
        | ((_ :: _) as ds, []) => Some (if neg then - Z_of_digits ds else Z_of_digits ds)%Z
        | _ => None
        end
      else None
  end.

Definition parse_decimal (neg : bool) (l : list ascii) : option float :=
  let '(ip, r1) := span_digits l in
  let '(fp, r2) := match r1 with
                   | "."%char :: r => span_digits r
                   | _ => ([], r1)
                   end in
  match (ip ++ fp)%list with
  | [] => None
  | ds =>
      e ← parse_exponent r2;
      Some (of_Q neg (inject_Z (Z_of_digits ds) * pow10 (e - Z.of_nat (length fp))))
  end.

Definition float_of_str (s : string) : res float :=
  match drop_underscores "000" (strip (list_ascii_of_string s)) with
  | None => Raise (ValueError s)
  | Some l =>
      let '(neg, l') := split_sign l in
      let word := string_of_list_ascii (lower <$> l') in
      if (word =? "inf")%string || (word =? "infinity")%string then Ok (S754_infinity neg)
      else if (word =? "nan")%string then Ok S754_nan
      else match parse_decimal neg l' with
           | Some x => Ok x
           | None => Raise (ValueError s)
           end
  end.

End Float.

(** ** The script *)

Inductive datatype := Tstr | Tlist | Tfloat | Tint.

(** (property name, wikidata property id, has_date, datatype, get_label) *)
Record property := mkProperty {
  pname : string;
  pid : Z;
  has_date : bool;
  ptype : datatype;
  get_label : bool
}.

Definition is_list (t : datatype) : bool := if t is Tlist then true else false.

Definition wikidata_properties : list property := [
  mkProperty "codeiso2" 297 false Tstr false;
  mkProperty "continent" 30 false Tlist true;
  mkProperty "area_km2" 2046 false Tfloat false;
  mkProperty "population" 1082 true Tint false;
  mkProperty "gdp_bd" 2131 true Tfloat false;
  mkProperty "languages" 37 false Tlist true;
  mkProperty "flag_image" 41 false Tstr false;
  mkProperty "locator_map" 242 false Tlist false;
  mkProperty "osm_rel_id" 402 false Tstr false
].

(** The three queries, by what they ask for; their SPARQL text is not
    modelled. A response is its list of bindings, each a mapping from a
    variable to a JSON object with string fields ([type], [value], ...). *)
Inductive query :=
  | build_basic_query (properties : list property)
  | build_list_query (p : property)
  | build_dated_query (p : property).

Abbreviation binding := (gmap string (gmap string string)).

Definition restructure_json (bindings : list binding) : list (gmap string string) :=
  (λ item : binding, (λ val : gmap string string, default "" (val !! "value")) <$> item)
    <$> bindings.

(** [s.replace(pat, "")]: every occurrence of [pat], left to right, is
    removed ([skip] characters of a match are still to be dropped). *)
Fixpoint remove_from (skip : nat) (pat s : string) : string :=
  match s with
  | EmptyString => EmptyString
  | String c s' =>
      match skip with
      | S n => remove_from n pat s'
      | O => if String.prefix pat s
             then remove_from (String.length pat - 1) pat s'
             else String c (remove_from 0 pat s')
      end
  end.

Definition str_remove (pat s : string) : string :=
  if String.eqb pat "" then s else remove_from 0 pat s.

Definition endswith (s suffix : string) : bool :=
  (String.length suffix <=? String.length s)%nat
  && String.eqb (substring (String.length s - String.length suffix)
                   (String.length suffix) s) suffix.

(** [s[:-n]] *)
Definition drop_last (n : nat) (s : string) : string :=
  substring 0 (String.length s - n) s.

(** [', '.join(l)] *)
Definition join (sep : string) (l : list string) : string := String.concat sep l.

Definition dquote : string := String (ascii_of_nat 34) EmptyString.
Definition newline : string := String (ascii_of_nat 10) EmptyString.

(** [unique()]: the distinct values, in order of first appearance *)
Definition unique (l : list string) : list string := rev (remove_dups (rev l)).

(** The locator map scores. *)
Definition locator_map_score_dict : list (string * Z) := [
  ("orthographic", 2%Z);
  ("orthographic projection", 1%Z);
  ("on the globe", 3%Z)
].

(** [d.get(x, default)] on a dict literal *)
Fixpoint dict_get {V} (d : list (string * V)) (x : string) (dflt : V) : V :=
  match d with
  | [] => dflt
  | (k, v) :: d' => if String.eqb k x then v else dict_get d' x dflt
  end.

Definition commons_prefix : string :=
  "http://commons.wikimedia.org/wiki/Special:FilePath/".

Section Script.

(** The environment of a run: the kind of sort pandas is given, urllib's
    [unquote], the query service and the date of the day. *)
Context (K : SortKind).
Context (unquote : string → string).
Context (endpoint : query → res (list binding)).
Context (today : string).

(** [requests.get] with [raise_for_status] *)
Definition fetch_wikidata (q : query) : res (list binding) := endpoint q.

Definition restructure_dated_property
    (rows : list (gmap string string)) (nameattribute : string)
  : res (gmap string string) :=
  let df := DataFrame_fillna rows in
  df ← drop_empty df "codeiso2";
  df ← sort_values K df ("date_" +:+ nameattribute) false;
  df ← groupby_first df "codeiso2";
  to_mapping df "codeiso2" nameattribute.

(** [f'{row["codeiso2"]} = "{row[item]}"'] *)
Definition lua_entry (item : string) (row : gmap string string) : string :=
  cell row "codeiso2" +:+ " = " +:+ dquote +:+ cell row item +:+ dquote.

(** The entries of one sub-table: the rows with a code, in frame order. *)
Definition tabitem (df : DataFrame) (item : string) : res (list string) :=
  mapM (λ row, if decide (item ∈ columns df) then Ok (lua_entry item row)
               else Raise (KeyError item))
       (filter (λ row, cell row "codeiso2" ≠ "") (records df)).

Definition lua_subtable (item : string) (entries : list string) : string :=
  "    " +:+ item +:+ " = {" +:+ join ", " entries +:+ "}," +:+ newline +:+ newline.

Definition process_lua_data (df : DataFrame) (selected_property : list string)
  : res string :=
  df ← sort_values K df "name" true;
  codes ← getitem df "codeiso2";
  let list_codes_iso := (λ v, dquote +:+ v +:+ dquote) <$> unique codes in
  let mystr := "-- begin data section" +:+ newline in
  let mystr := mystr +:+ "data = {" +:+ newline +:+ newline in
  let mystr := mystr +:+ "    countrylist = {" +:+ join ", " list_codes_iso
                     +:+ "}," +:+ newline +:+ newline in
  mystr ← foldl (λ acc item,
                   mystr ← acc;
                   if negb (String.eqb item "codeiso2") then
                     entries ← tabitem df item;
                     Ok (mystr +:+ lua_subtable item entries)
                   else Ok mystr)
                (Ok mystr) selected_property;
  let mystr := mystr +:+ "}" +:+ newline +:+ newline in
  let mystr := mystr +:+ "last_update = " +:+ dquote +:+ today +:+ dquote in
  Ok (mystr +:+ newline +:+ "-- end data section").

(** *** Requests and reconciliation *)

Definition basic_properties : list property :=
  filter (λ f, negb (has_date f) && negb (is_list (ptype f))) wikidata_properties.
Definition list_properties : list property :=
  filter (λ f, is_list (ptype f)) wikidata_properties.
Definition date_properties : list property :=
  filter (λ f, has_date f) wikidata_properties.

(** The base table: countries with a code, one row per code. *)
Definition base_pass : res DataFrame :=
  result ← fetch_wikidata (build_basic_query basic_properties);
  let df := DataFrame_fillna (restructure_json result) in
  df ← drop_empty df "codeiso2";
  groupby_first df "codeiso2".

Definition request_list (p : property) : res DataFrame :=
  result ← fetch_wikidata (build_list_query p);
  let df := DataFrame_fillna (restructure_json result) in
  df ← drop_empty df "codeiso2";
  if get_label p then
    col ← getitem df (pname p +:+ "Label");
    Ok (setitem df (pname p) col)
  else Ok df.

Definition request_lists : res (gmap string DataFrame) :=
  foldl (λ acc p, dfl ← acc; df ← request_list p; Ok (<[pname p := df]> dfl))
        (Ok ∅) list_properties.

Definition lookup_frame (dfl : gmap string DataFrame) (k : string) : res DataFrame :=
  match dfl !! k with
  | Some df => Ok df
  | None => Raise (KeyError k)
  end.

Definition clean_continent_name (v : string) : string :=
  if bool_decide (v ∈ ["Insular Oceania"; "Australian continent"]) then "Oceania" else v.

Definition clean_continent (df : DataFrame) : res DataFrame :=
  col ← getitem df "continentLabel";
  groupby_first (setitem df "continent" (clean_continent_name <$> col)) "codeiso2".

(** [groupby(["codeiso2"])['languages'].apply(', '.join).reset_index()] *)
Definition concatenate_languages (df : DataFrame) : res DataFrame :=
  if decide ("codeiso2" ∈ columns df) then
    if decide ("languages" ∈ columns df) then
      Ok (mkDF {["codeiso2"; "languages"]}
            ((λ k, {[ "codeiso2" := k;
                      "languages" :=
                        join ", " ((λ r, cell r "languages")
                                     <$> filter (λ r, cell r "codeiso2" = k) (records df)) ]})
               <$> group_keys "codeiso2" (records df)))
    else Raise (KeyError "languages")
  else Raise (KeyError "codeiso2").

Definition locator_map_score (x : string) : Z := dict_get locator_map_score_dict x 99%Z.

(** The cleaned locator map, its score (an integer column, kept beside
    the records), the sort by score and the first row of each code. *)
Definition manage_locator_map (df : DataFrame) : res DataFrame :=
  col ← getitem df "locator_map";
  let df := setitem df "locator_map"
              ((λ v, unquote (str_remove commons_prefix v)) <$> col) in
  col ← getitem df "locator_map";
  let score := foldl (λ _ _, locator_map_score <$> col)
                     (replicate (length col) 99%Z) locator_map_score_dict in
  let sorted := np_sort K (λ a b, (a.2 <=? b.2)%Z) (zip (records df) score) in
  groupby_first (mkDF (columns df) sorted.*1) "codeiso2".

Definition clear_lists (dfl : gmap string DataFrame) : res (gmap string DataFrame) :=
  df ← lookup_frame dfl "continent";
  df ← clean_continent df;
  let dfl := <["continent" := df]> dfl in
  df ← lookup_frame dfl "languages";
  df ← concatenate_languages df;
  let dfl := <["languages" := df]> dfl in
  df ← lookup_frame dfl "locator_map";
  df ← manage_locator_map df;
  Ok (<["locator_map" := df]> dfl).

(** The resolved values of each property, by code; the list holds the
    items of [{**conversion_list_dict, **conversion_date_dict}]. *)
Definition conversion_list_dict (dfl : gmap string DataFrame)
  : res (list (string * gmap string string)) :=
  mapM (λ p, df ← lookup_frame dfl (pname p);
             d ← to_mapping df "codeiso2" (pname p);
             Ok (pname p, d))
       list_properties.

Definition conversion_date_dict : res (list (string * gmap string string)) :=
  mapM (λ p, result ← fetch_wikidata (build_dated_query p);
             d ← restructure_dated_property (restructure_json result) (pname p);
             Ok (pname p, d))
       date_properties.

(** [df[key] = df["codeiso2"].apply(lambda x: dictval.get(x, ""))] *)
Definition attach (df : DataFrame) (key : string) (dictval : gmap string string)
  : res DataFrame :=
  codes ← getitem df "codeiso2";
  Ok (setitem df key ((λ x, default "" (dictval !! x)) <$> codes)).

Definition gather : res DataFrame :=
  df ← base_pass;
  dfl ← request_lists;
  dfl ← clear_lists dfl;
  cl ← conversion_list_dict dfl;
  cd ← conversion_date_dict;
  foldl (λ acc kv, df ← acc; attach df kv.1 kv.2) (Ok df) (cl ++ cd).

(** *** Rendering *)

(** The area column: [astype(float)], [round] from 100 on, [f'{x:,}'],
    and the final [".0"] cut. On a frame with no row the column stays a
    float column after [apply], which has no [.str] accessor. *)
Definition format_area (col : list string) : res (list string) :=
  col ← mapM Float.float_of_str col;
  let col := (λ x, if Float.geb x (Float.of_Z 100) then Float.np_round x else x) <$> col in
  let col := Float.format_comma <$> col in
  if bool_decide (col = []) then
    Raise (AttributeError "Can only use .str accessor with string values!")
  else Ok ((λ s, if endswith s ".0" then drop_last 2 s else s) <$> col).

(** [f'{int(x):,}' if x else ""] *)
Definition format_population (x : string) : res string :=
  if negb (String.eqb x "") then n ← int_of_str x; Ok (format_int_comma n)
  else Ok "".

(** ["{:.1f}".format(float(x)/1000000000) if x else ""] *)
Definition format_gdp (x : string) : res string :=
  if negb (String.eqb x "") then
    y ← Float.float_of_str x;
    Ok (Float.format_fixed1 (SFdiv Float.prec Float.emax y (Float.of_Z 1000000000)))
  else Ok "".

Definition render (df : DataFrame) : res DataFrame :=
  col ← getitem df "countryLabel";
  let df := setitem df "name" col in
  col ← getitem df "area_km2";
  col ← format_area col;
  let df := setitem df "area_km2" col in
  col ← getitem df "population";
  col ← mapM format_population col;
  let df := setitem df "population" col in
  col ← getitem df "gdp_bd";
  col ← mapM format_gdp col;
  let df := setitem df "gdp_bd" col in
  col ← getitem df "flag_image";
  let df := setitem df "flag_image"
              ((λ v, unquote (str_remove commons_prefix v)) <$> col) in
  col ← getitem df "wikipedia";
  let df := setitem df "wikipedia"
              ((λ v, unquote (str_remove "https://en.wikipedia.org/wiki/" v)) <$> col) in
  col ← getitem df "country";
  Ok (setitem df "wikidata_id" (str_remove "http://www.wikidata.org/entity/" <$> col)).

(** The files of a run: the two CSV tables (as frames) and the Lua text. *)
Record files := mkFiles {
  countries_wikidata_brut : DataFrame;
  countries_wikidata_formated : DataFrame;
  countries_wikidata_lua : string
}.

Definition selected_property : list string :=
  (pname <$> wikidata_properties) ++ ["name"; "wikipedia"; "wikidata_id"].

Definition main : res files :=
  brut ← gather;
  df ← render brut;
  wikistring ← process_lua_data df selected_property;
  Ok (mkFiles brut df wikistring).

End Script.

(** ** The text of the queries

    The three builders fill a SPARQL template with [%]; the templates are
    the script's, line by line. *)

Module Sparql.

Abbreviation basic_query := build_basic_query.
Abbreviation list_query := build_list_query.
Abbreviation dated_query := build_dated_query.

(** [template % args], for templates whose conversions are [%s]: [None]
    is the [TypeError] of a wrong number of arguments (or the
    [ValueError] of another conversion). *)
Fixpoint percent (template : list ascii) (args : list string) : option (list ascii) :=
  match template with
  | [] => if args is [] then Some [] else None
  | "%"%char :: "s"%char :: t =>
      match args with
      | a :: args' => app (list_ascii_of_string a) <$> percent t args'
      | [] => None
      end
  | "%"%char :: "%"%char :: t => cons "%"%char <$> percent t args
  | "%"%char :: _ => None
  | c :: t => cons c <$> percent t args
  end.

Definition format (template : string) (args : list string) : option string :=
  string_of_list_ascii <$> percent (list_ascii_of_string template) args.

(** The name a query selects a property by: the label when asked for. *)
Definition selected_name (a : property) : string :=
  if negb (get_label a) then pname a else pname a +:+ "Label".

Definition basic_template : string :=
  String.concat newline [
    "SELECT distinct ?country ?countryLabel ?wikipedia %s WHERE { ";
    "        ?country p:P31 ?country_instance_of_statement .    ";
    "        ?country_instance_of_statement ps:P31 wd:Q3624078  .";
    "        ?country ^schema:about ?wikipedia .";
    "        ?wikipedia schema:isPartOf <https://en.wikipedia.org/>; ";
    "        filter not exists{?country p:P31/ps:P31 wd:Q3024240 }  ";
    "        %s";
    "        SERVICE wikibase:label { bd:serviceParam wikibase:language " +:+ dquote +:+ "en" +:+ dquote +:+ ".}";
    "        }  order by ?countryLabel"
  ].

Definition list_template : string :=
  String.concat newline [
    "SELECT distinct ?country ?countryLabel ?codeiso2 %s WHERE { ";
    "        ?country p:P31 ?country_instance_of_statement .    ";
    "        ?country_instance_of_statement ps:P31 wd:Q3624078  ;";
    "        filter not exists{?country p:P31/ps:P31 wd:Q3024240 }  ";
    "        OPTIONAL { ?country wdt:P%s ?%s. }";
    "        OPTIONAL { ?country wdt:P297 ?codeiso2. }";
    "        SERVICE wikibase:label { bd:serviceParam wikibase:language " +:+ dquote +:+ "en" +:+ dquote +:+ ".}";
    "        }  order by ?countryLabel"
  ].

Definition dated_template : string :=
  String.concat newline [
    "SELECT ?country ?%s ?date_%s ?codeiso2 WHERE {";
    "      ?country p:P31 ?country_instance_of_statement .    ";
    "        ?country_instance_of_statement ps:P31 wd:Q3624078  ;";
    "        filter not exists{?country p:P31/ps:P31 wd:Q3024240 }  ";
    "      OPTIONAL { ?country wdt:P297 ?codeiso2. }";
    "      OPTIONAL {";
    "        ?country p:P%s ?%s_statement.";
    "        ?%s_statement ps:P%s ?%s;";
    "                     pq:P585 ?date_%s.";
    "      }";
    "      SERVICE wikibase:label { bd:serviceParam wikibase:language " +:+ dquote +:+ "en" +:+ dquote +:+ ". }";
    "    }";
    "    ORDER BY ?codeiso2 DESC(?date_%s)";
    "    "
  ].

Definition select_string (properties : list property) : string :=
  String.concat "" ((λ a, " ?" +:+ selected_name a) <$> properties).

Definition optional_clause (a : property) : option string :=
  format "OPTIONAL { ?country wdt:P%s ?%s. }" [str_of_Z (pid a); pname a].

Fixpoint optional_clauses (properties : list property) : option (list string) :=
  match properties with
  | [] => Some []
  | a :: properties' =>
      c ← optional_clause a; cs ← optional_clauses properties'; Some (c :: cs)
  end.

Definition optional_string (properties : list property) : option string :=
  String.concat (newline +:+ "        ") <$> optional_clauses properties.

Definition build_basic_query (properties : list property) : option string :=
  o ← optional_string properties;
  format basic_template [select_string properties; o].

Definition build_list_query (p : property) : option string :=
  format list_template ["?" +:+ selected_name p; str_of_Z (pid p); pname p].

(** [qreplace]: the nine arguments of the dated template *)
Definition qreplace (p : property) : list string :=
  replicate 2 (pname p) ++ [str_of_Z (pid p)] ++ replicate 2 (pname p)
    ++ [str_of_Z (pid p)] ++ replicate 3 (pname p).

Definition build_dated_query (p : property) : option string :=
  format dated_template (qreplace p).

(** The text sent for a query. *)
Definition text (q : query) : option string :=
  match q with
  | basic_query properties => build_basic_query properties
  | list_query p => build_list_query p
  | dated_query p => build_dated_query p
  end.

End Sparql.

(** * Properties *)

(** ** The exception monad *)

Lemma bind_Ok {A B} (m : res A) (k : A → res B) (b : B) :
  (x ← m; k x) = Ok b ↔ ∃ a, m = Ok a ∧ k a = Ok b.
Proof.
  destruct m as [a|e]; simpl; split.
  - eauto.
  - by intros (? & [= <-] & ?).
  - done.
  - by intros (? & ? & ?).
Qed.

Ltac inv_res :=
  repeat match goal with
    | H : Ok _ = Ok _ |- _ => simplify_eq
    | H : Raise _ = Ok _ |- _ => discriminate H
    | H : mbind _ _ = Ok _ |- _ =>
        apply bind_Ok in H as (? & ? & H)
    | H : (if decide ?P then _ else Raise _) = Ok _ |- _ =>
        destruct (decide P); [|discriminate H]
    end.

Lemma mapM_Ok {A B} (f : A → res B) l l' :
  mapM f l = Ok l' ↔ Forall2 (λ x y, f x = Ok y) l l'.
Proof.
  revert l'. induction l as [|x l IH]; intros l'; simpl.
  - split; [intros [= <-]; constructor | by inversion 1].
  - rewrite bind_Ok. split.
    + intros (y & Hy & H). apply bind_Ok in H as (ys & Hys & [= <-]).
      constructor; [done|]. by apply IH.
    + inversion 1 as [|? y ? ys Hy Hys]; subst. exists y. split; [done|].
      apply bind_Ok. exists ys. split; [by apply IH|done].
Qed.

Lemma mapM_length {A B} (f : A → res B) l l' :
  mapM f l = Ok l' → length l' = length l.
Proof. intros H%mapM_Ok. symmetry. by eapply Forall2_length. Qed.

(** ** Frames *)

Definition codes (df : DataFrame) : list string :=
  (λ r, cell r "codeiso2") <$> records df.

Lemma getitem_Ok df c col :
  getitem df c = Ok col → col = (λ r, cell r c) <$> records df ∧ c ∈ columns df.
Proof. unfold getitem. intros H. by inv_res. Qed.

Lemma getitem_length df c col : getitem df c = Ok col → length col = length (records df).
Proof. intros [-> _]%getitem_Ok. by rewrite length_fmap. Qed.

Lemma setitem_column df key values c :
  key ≠ c → length values = length (records df) →
  (λ r, cell r c) <$> records (setitem df key values) = (λ r, cell r c) <$> records df.
Proof.
  intros Hne. unfold setitem. simpl. generalize (records df). intros rows.
  revert values. induction rows as [|r rows IH]; intros [|v values] Hlen; try done.
  simpl. f_equal; [|apply IH; simpl in Hlen; lia].
  unfold cell. by rewrite lookup_insert_ne.
Qed.

Lemma setitem_codes df key values :
  key ≠ "codeiso2" → length values = length (records df) →
  codes (setitem df key values) = codes df.
Proof. apply setitem_column. Qed.

Lemma setitem_length df key values :
  length values = length (records df) →
  length (records (setitem df key values)) = length (records df).
Proof. intros H. unfold setitem. simpl. rewrite length_zip_with. lia. Qed.

Lemma drop_empty_Ok df c df' :
  drop_empty df c = Ok df' →
  columns df' = columns df ∧ records df' = filter (λ r, cell r c ≠ "") (records df).
Proof. unfold drop_empty. intros H. by inv_res. Qed.

(** ** Grouping *)

Lemma group_keys_perm c rows :
  group_keys c rows ≡ₚ remove_dups ((λ r, cell r c) <$> rows).
Proof. apply insertion_sort_perm. Qed.

Lemma group_keys_NoDup c rows : NoDup (group_keys c rows).
Proof. rewrite group_keys_perm. apply NoDup_remove_dups. Qed.

Lemma elem_of_group_keys c rows k :
  k ∈ group_keys c rows ↔ ∃ r, r ∈ rows ∧ cell r c = k.
Proof.
  rewrite group_keys_perm, elem_of_remove_dups, list_elem_of_fmap.
  split; [intros (r & -> & ?) | intros (r & ? & <-)]; eauto.
Qed.

Lemma first_of_Some c k rows r :
  first_of c k rows = Some r → r ∈ rows ∧ cell r c = k.
Proof.
  unfold first_of. intros H.
  assert (r ∈ filter (λ r, cell r c = k) rows) as Hin.
  { destruct (filter _ rows) as [|r' l]; simplify_eq/=. left. }
  by apply list_elem_of_filter in Hin as [? ?].
Qed.

Lemma first_of_is_Some c k rows r :
  r ∈ rows → cell r c = k → is_Some (first_of c k rows).
Proof.
  intros Hin Hk. unfold first_of.
  assert (r ∈ filter (λ r, cell r c = k) rows) as Hf by by apply list_elem_of_filter.
  destruct (filter _ rows); [by apply not_elem_of_nil in Hf | by eexists].
Qed.

Lemma omap_first_of c rows ks :
  Forall (λ k, k ∈ group_keys c rows) ks →
  (λ r, cell r c) <$> omap (λ k, first_of c k rows) ks = ks
  ∧ Forall (λ r, first_of c (cell r c) rows = Some r) (omap (λ k, first_of c k rows) ks).
Proof.
  induction 1 as [|k ks Hk _ [IH1 IH2]]; csimpl; [by split|].
  apply elem_of_group_keys in Hk as (r & Hr & Hrk).
  destruct (first_of_is_Some c k rows r Hr Hrk) as [r' Hr'].
  rewrite Hr'. csimpl. destruct (first_of_Some _ _ _ _ Hr') as [_ Hk'].
  split; [by rewrite Hk', IH1|].
  constructor; [by rewrite Hk'|done].
Qed.

Lemma groupby_first_Ok df c df' :
  groupby_first df c = Ok df' →
  columns df' = columns df
  ∧ (λ r, cell r c) <$> records df' = group_keys c (records df)
  ∧ Forall (λ r, first_of c (cell r c) (records df) = Some r) (records df').
Proof.
  unfold groupby_first. intros H. inv_res. simpl. split; [done|].
  apply omap_first_of. by apply Forall_forall.
Qed.

Lemma groupby_first_NoDup df c df' :
  groupby_first df c = Ok df' → NoDup ((λ r, cell r c) <$> records df').
Proof. intros (_ & -> & _)%groupby_first_Ok. apply group_keys_NoDup. Qed.

Lemma groupby_first_subseteq df c df' :
  groupby_first df c = Ok df' → records df' ⊆ records df.
Proof.
  intros (_ & _ & H)%groupby_first_Ok r Hr.
  rewrite Forall_forall in H. by destruct (first_of_Some _ _ _ _ (H r Hr)).
Qed.

(** ** Mappings from code to value *)

Definition insert_record (kc vc : string) (d : gmap string string)
    (r : gmap string string) : gmap string string :=
  <[cell r kc := cell r vc]> d.

Lemma to_mapping_Ok df kc vc d :
  to_mapping df kc vc = Ok d → d = foldl (insert_record kc vc) ∅ (records df).
Proof.
  unfold to_mapping. generalize (∅ : gmap string string) as d0.
  induction (records df) as [|r rows IH]; simpl; intros d0 H.
  - by inv_res.
  - destruct (decide (kc ∈ columns df)), (decide (vc ∈ columns df)); simpl in H;
      try (exfalso; clear -H; induction rows as [|? ? IH']; simpl in *; [done|eauto]).
    by apply IH in H.
Qed.

Lemma to_mapping_total df kc vc :
  kc ∈ columns df → vc ∈ columns df → is_ok (to_mapping df kc vc) = true.
Proof.
  intros Hk Hv. unfold to_mapping. generalize (∅ : gmap string string) as d0.
  induction (records df) as [|r rows IH]; simpl; intros d0; [done|].
  rewrite !decide_True by done. simpl. apply IH.
Qed.

Lemma lookup_foldl_insert_record kc vc rows : ∀ d k v,
  foldl (insert_record kc vc) d rows !! k = Some v →
  d !! k = Some v ∨ ∃ r, r ∈ rows ∧ cell r kc = k ∧ cell r vc = v.
Proof.
  induction rows as [|r rows IH]; simpl; intros d k v H; [by left|].
  apply IH in H as [H|(r' & ? & ? & ?)].
  - unfold insert_record in H. apply lookup_insert_Some in H as [[<- <-]|[_ H]].
    + right. exists r. split; [left|done].
    + by left.
  - right. exists r'. split; [by right|done].
Qed.

Lemma foldl_insert_record_lookup kc vc rows : ∀ d r,
  NoDup ((λ r, cell r kc) <$> rows) → r ∈ rows →
  foldl (insert_record kc vc) d rows !! cell r kc = Some (cell r vc).
Proof.
  induction rows as [|r0 rows IH]; csimpl; intros d r Hnd Hin.
  - by apply not_elem_of_nil in Hin.
  - apply NoDup_cons in Hnd as [Hnotin Hnd].
    apply elem_of_cons in Hin as [->|Hin]; [|by apply IH].
    assert (∀ d', d' !! cell r0 kc = Some (cell r0 vc) →
                  foldl (insert_record kc vc) d' rows !! cell r0 kc = Some (cell r0 vc)) as Hkeep.
    { clear IH Hnd. revert Hnotin. induction rows as [|r1 rows IH]; csimpl; intros Hnotin d' Hd'; [done|].
      apply not_elem_of_cons in Hnotin as [Hne Hnotin]. apply IH; [done|].
      unfold insert_record. by rewrite lookup_insert_ne. }
    apply Hkeep. unfold insert_record. apply lookup_insert_eq.
Qed.

(** ** Sorted frames *)

Lemma elem_of_rev {A} (l : list A) x : x ∈ rev l ↔ x ∈ l.
Proof. rewrite rev_alt. apply elem_of_reverse. Qed.

Lemma rev_Permutation {A} (l : list A) : rev l ≡ₚ l.
Proof. rewrite rev_alt. apply reverse_Permutation. Qed.

Lemma StronglySorted_rev {A} (R : A → A → Prop) l :
  StronglySorted R l → StronglySorted (flip R) (rev l).
Proof.
  induction 1 as [|x l Hs IH Hall]; simpl; [constructor|].
  apply StronglySorted_app. split; [|split; [done|repeat constructor]].
  intros y z Hy ->%list_elem_of_singleton.
  apply (proj1 (elem_of_rev _ _)) in Hy.
  rewrite Forall_forall in Hall. unfold flip. by apply Hall.
Qed.

Lemma head_filter_sorted {A} (R : A → A → Prop) (P : A → Prop)
    `{∀ x, Decision (P x)} l r :
  StronglySorted R l → head (filter P l) = Some r →
  ∀ r', r' ∈ l → P r' → r' = r ∨ R r r'.
Proof.
  induction 1 as [|x l Hs IH Hall]; simpl; intros Hhd r' Hin HP.
  - by apply not_elem_of_nil in Hin.
  - rewrite filter_cons in Hhd. destruct (decide (P x)) as [HPx|HPx].
    + simpl in Hhd. simplify_eq. apply elem_of_cons in Hin as [->|Hin]; [by left|].
      right. rewrite Forall_forall in Hall. by apply Hall.
    + apply elem_of_cons in Hin as [->|Hin]; [done|]. by apply IH.
Qed.

Lemma row_leb_total c : le_total (row_leb c).
Proof.
  intros x y. unfold row_leb.
  destruct (String.leb_total (cell x c) (cell y c)) as [->| ->]; [by left|by right].
Qed.

Lemma row_leb_trans c : le_trans (row_leb c).
Proof.
  intros x y z. unfold row_leb. intros H1%Is_true_true H2%Is_true_true.
  apply Is_true_true. by eapply StrOrd.leb_trans.
Qed.

Lemma sort_values_Ok K df c asc df' :
  sort_values K df c asc = Ok df' →
  columns df' = columns df
  ∧ records df' ≡ₚ records df
  ∧ StronglySorted (λ x y, if asc then row_leb c x y else row_leb c y x) (records df').
Proof.
  unfold sort_values. intros H. inv_res. simpl. split; [done|].
  destruct asc.
  - split; [apply np_sort_perm|].
    apply np_sort_sorted; [apply row_leb_total|apply row_leb_trans].
  - split; [by rewrite rev_Permutation, np_sort_perm, rev_Permutation|].
    apply (StronglySorted_rev (λ x y, row_leb c x y)).
    apply np_sort_sorted; [apply row_leb_total|apply row_leb_trans].
Qed.

(** ** Dated properties *)

Lemma cell_fillna cols r c : cell (fillna cols r) c = cell r c.
Proof.
  unfold cell, fillna. rewrite lookup_union, lookup_gset_to_gmap.
  destruct (r !! c) as [v|]; simpl; [by rewrite union_Some_l|].
  unfold guard. by case_decide.
Qed.

Lemma elem_of_columns_fillna rows c :
  c ∈ columns (DataFrame_fillna rows) ↔ ∃ r, r ∈ rows ∧ is_Some (r !! c).
Proof.
  simpl. rewrite elem_of_union_list. setoid_rewrite list_elem_of_fmap. split.
  - intros (X & (r & -> & Hr) & Hc). exists r. split; [done|]. by apply elem_of_dom.
  - intros (r & Hr & Hc). exists (dom r). split; [eauto|]. by apply elem_of_dom.
Qed.

Section Dated.

Context (K : SortKind).

Lemma dated_resolution rows name d :
  restructure_dated_property K rows name = Ok d →
  (∀ code v, d !! code = Some v →
     code ≠ ""
     ∧ ∃ r, r ∈ rows ∧ cell r "codeiso2" = code ∧ cell r name = v
            ∧ ∀ r', r' ∈ rows → cell r' "codeiso2" = code →
                    String.leb (cell r' ("date_" +:+ name)) (cell r ("date_" +:+ name)) = true)
  ∧ (∀ r, r ∈ rows → cell r "codeiso2" ≠ "" → is_Some (d !! cell r "codeiso2")).
Proof.
  unfold restructure_dated_property. intros H.
  apply bind_Ok in H as (df1 & [_ H1]%drop_empty_Ok & H).
  apply bind_Ok in H as (df2 & (_ & Hperm & Hsorted)%sort_values_Ok & H).
  apply bind_Ok in H as (df3 & Hg & ->%to_mapping_Ok).
  pose proof (groupby_first_NoDup _ _ _ Hg) as Hnd.
  apply groupby_first_Ok in Hg as (_ & Hkeys & Hfirst).
  rewrite Forall_forall in Hfirst.
  set (cols := columns (DataFrame_fillna rows)) in *.
  assert (∀ r, r ∈ rows → cell r "codeiso2" ≠ "" → fillna cols r ∈ records df2) as Hin.
  { intros r Hr Hne. rewrite Hperm, H1. apply list_elem_of_filter.
    rewrite cell_fillna. split; [done|]. simpl. apply list_elem_of_fmap. eauto. }
  split.
  - intros code v [Hd|(r3 & Hr3 & Hcode & Hv)]%lookup_foldl_insert_record; [done|].
    pose proof (Hfirst _ Hr3) as Hf. rewrite Hcode in Hf.
    destruct (first_of_Some _ _ _ _ Hf) as [Hin2 _].
    rewrite Hperm, H1 in Hin2. apply list_elem_of_filter in Hin2 as [Hne Hin1].
    simpl in Hin1. apply list_elem_of_fmap in Hin1 as (r & -> & Hr).
    rewrite !cell_fillna in *. split; [congruence|].
    exists r. repeat split; try done.
    intros r' Hr' Hcode'.
    destruct (head_filter_sorted _ (λ r, cell r "codeiso2" = code) _ _ Hsorted Hf
                (fillna cols r')) as [E|Hle].
    + apply Hin; congruence.
    + by rewrite cell_fillna.
    + assert (cell r' ("date_" +:+ name) = cell r ("date_" +:+ name)) as ->
        by (rewrite <- (cell_fillna cols r'), E; apply cell_fillna).
      apply StrOrd.leb_refl.
    + unfold row_leb in Hle. rewrite !cell_fillna in Hle. by apply Is_true_true.
  - intros r Hr Hne.
    assert (cell r "codeiso2" ∈ group_keys "codeiso2" (records df2)) as Hk.
    { apply elem_of_group_keys. exists (fillna cols r). split; [by apply Hin|apply cell_fillna]. }
    rewrite <- Hkeys in Hk. apply list_elem_of_fmap in Hk as (r3 & -> & Hr3).
    rewrite (foldl_insert_record_lookup "codeiso2" name (records df3) ∅ r3 Hnd Hr3). eauto.
Qed.

Lemma dated_total rows name :
  "codeiso2" ∈ columns (DataFrame_fillna rows) →
  "date_" +:+ name ∈ columns (DataFrame_fillna rows) →
  name ∈ columns (DataFrame_fillna rows) →
  ∃ d, restructure_dated_property K rows name = Ok d.
Proof.
  intros Hc Hd Hn. unfold restructure_dated_property, drop_empty.
  rewrite decide_True by done. cbn [mbind res_bind].
  unfold sort_values. cbn [columns]. rewrite decide_True by done. cbn [mbind res_bind].
  unfold groupby_first. cbn [columns]. rewrite decide_True by done. cbn [mbind res_bind].
  match goal with |- ∃ d, to_mapping ?df _ _ = Ok d =>
    pose proof (to_mapping_total df "codeiso2" name Hc Hn) as Hok;
    destruct (to_mapping df "codeiso2" name); [eauto|done] end.
Qed.

(** A dated statement of the population query. *)
Definition population_row (code value date : string) : gmap string string :=
  {[ "codeiso2" := code; "population" := value; "date_population" := date ]}.

(** C2. For a dated property, among the rows with a non-empty code, the
    value resolved for a code is the value of a row of that code whose
    date string is the largest of the code, and every such code is
    resolved; in particular, of two rows of one code dated 2020-01-01
    and 2022-06-01, in either order, the value of 2022 is selected. *)
Theorem latest_value_wins :
  (∀ rows name d,
     restructure_dated_property K rows name = Ok d →
     (∀ code v, d !! code = Some v →
        code ≠ ""
        ∧ ∃ r, r ∈ rows ∧ cell r "codeiso2" = code ∧ cell r name = v
               ∧ ∀ r', r' ∈ rows → cell r' "codeiso2" = code →
                       String.leb (cell r' ("date_" +:+ name))
                                  (cell r ("date_" +:+ name)) = true)
     ∧ (∀ r, r ∈ rows → cell r "codeiso2" ≠ "" → is_Some (d !! cell r "codeiso2")))
  ∧ (∀ code v1 v2 rows,
       code ≠ "" →
       rows ≡ₚ [population_row code v1 "2020-01-01"; population_row code v2 "2022-06-01"] →
       ∃ d, restructure_dated_property K rows "population" = Ok d
            ∧ d !! code = Some v2).
Proof.
  split; [apply dated_resolution|].
  intros code v1 v2 rows Hne Hperm.
  set (r1 := population_row code v1 "2020-01-01") in *.
  set (r2 := population_row code v2 "2022-06-01") in *.
  assert (∀ r, r ∈ rows ↔ r = r1 ∨ r = r2) as Hrows.
  { intros r. rewrite Hperm, elem_of_cons, list_elem_of_singleton. done. }
  assert (∀ c, is_Some (r1 !! c) → c ∈ columns (DataFrame_fillna rows)) as Hcol.
  { intros c Hc. apply elem_of_columns_fillna. exists r1. split; [|done].
    apply Hrows. by left. }
  destruct (dated_total rows "population") as [d Hd]; [by apply Hcol..|].
  exists d. split; [done|].
  destruct (dated_resolution _ _ _ Hd) as [Hsome Hall].
  destruct (Hall r1) as [v Hv]; [apply Hrows; by left|by vm_compute|].
  change (cell r1 "codeiso2") with code in Hv.
  destruct (Hsome _ _ Hv) as (_ & r & Hr & _ & Hval & Hmax).
  apply Hrows in Hr as [->| ->].
  - specialize (Hmax r2 ltac:(apply Hrows; by right) eq_refl). by vm_compute in Hmax.
  - rewrite Hv. f_equal. rewrite <- Hval. by vm_compute.
Qed.

End Dated.

(** ** The locator map *)

Definition scored_names : list string :=
  ["orthographic"; "orthographic projection"; "on the globe"].

Lemma locator_map_score_cases x :
  (x = "orthographic" ∧ locator_map_score x = 2%Z)
  ∨ (x = "orthographic projection" ∧ locator_map_score x = 1%Z)
  ∨ (x = "on the globe" ∧ locator_map_score x = 3%Z)
  ∨ ((x ∉ scored_names) ∧ locator_map_score x = 99%Z).
Proof.
  unfold locator_map_score, locator_map_score_dict, dict_get.
  destruct (String.eqb_spec "orthographic" x) as [<-|H1]; [by left|].
  destruct (String.eqb_spec "orthographic projection" x) as [<-|H2]; [right; by left|].
  destruct (String.eqb_spec "on the globe" x) as [<-|H3]; [right; right; by left|].
  right; right; right. split; [|done].
  unfold scored_names. rewrite !elem_of_cons, elem_of_nil.
  intros [?|[?|[?|[]]]]; congruence.
Qed.

(** C10. The score of a cleaned value is below 99 only if the value is
    equal, as a whole string, to "orthographic" (2), "orthographic
    projection" (1) or "on the globe" (3); any other value, also one that
    contains one of the three as a part, such as the name of an image
    file, has the default score 99. *)
Theorem locator_map_score_whole_string :
  locator_map_score "orthographic" = 2%Z
  ∧ locator_map_score "orthographic projection" = 1%Z
  ∧ locator_map_score "on the globe" = 3%Z
  ∧ (∀ x, (locator_map_score x < 99)%Z ↔ x ∈ scored_names)
  ∧ (∀ x, x ∉ scored_names → locator_map_score x = 99%Z)
  ∧ (∀ before name after,
       name ∈ scored_names → before +:+ name +:+ after ∉ scored_names →
       locator_map_score (before +:+ name +:+ after) = 99%Z)
  ∧ locator_map_score "France on the globe (Europe centered).svg" = 99%Z.
Proof.
  assert (∀ x, x ∉ scored_names → locator_map_score x = 99%Z) as Hdefault.
  { intros x Hx. destruct (locator_map_score_cases x) as [[-> _]|[[-> _]|[[-> _]|[_ ?]]]];
      try done; exfalso; apply Hx; unfold scored_names; set_solver. }
  repeat split; try done; try (by apply Hdefault); try (intros; by apply Hdefault).
  - intros Hlt. destruct (decide (x ∈ scored_names)); [done|].
    rewrite Hdefault in Hlt by done. lia.
  - unfold scored_names. rewrite !elem_of_cons, elem_of_nil.
    intros [->|[->|[->|[]]]]; by vm_compute.
Qed.


Lemma filter_fmap {A B} (f : A → B) (P : B → Prop) `{∀ y, Decision (P y)}
    (l : list A) :
  filter P (f <$> l) = f <$> filter (λ x, P (f x)) l.
Proof.
  induction l as [|x l IH]; csimpl; [done|].
  rewrite !filter_cons. case_decide; csimpl; by rewrite IH.
Qed.

Lemma zip_with_insert_fmap (c : string) (g : gmap string string → string) rows :
  zip_with (λ r v, <[c:=v]> r) rows (g <$> rows) = (λ r, <[c:=g r]> r) <$> rows.
Proof. induction rows as [|r rows IH]; csimpl; [done|]. by rewrite IH. Qed.







Section LocatorMap.

Context (K : SortKind) (unquote : string → string).










End LocatorMap.

(** ** Languages *)

(** The language values of a code, in the order of the frame. *)
Definition languages_of (df : DataFrame) (code : string) : list string :=
  (λ r, cell r "languages") <$> filter (λ r, cell r "codeiso2" = code) (records df).

Lemma concat_cons sep x (xs : list string) :
  xs ≠ [] → String.concat sep (x :: xs) = x +:+ sep +:+ String.concat sep xs.
Proof. by destruct xs. Qed.

Lemma append_empty_r s : s +:+ "" = s.
Proof.
  induction s as [|a s IH]; [done|].
  change (String a (s +:+ "") = String a s). by f_equal.
Qed.

Lemma append_assoc s1 s2 s3 : (s1 +:+ s2) +:+ s3 = s1 +:+ s2 +:+ s3.
Proof.
  induction s1 as [|a s1 IH]; [done|].
  change (String a ((s1 +:+ s2) +:+ s3) = String a (s1 +:+ s2 +:+ s3)). by f_equal.
Qed.

Lemma concat_empty_cons x (xs : list string) :
  String.concat "" (x :: xs) = x +:+ String.concat "" xs.
Proof. destruct xs; [symmetry; apply append_empty_r|done]. Qed.

(** No separator follows the last value. *)
Lemma join_snoc sep (l : list string) x :
  join sep (l ++ [x])%list = String.concat "" ((λ v, v +:+ sep) <$> l) +:+ x.
Proof.
  unfold join. induction l as [|y l IH]; [done|].
  change (String.concat sep (y :: (l ++ [x])%list)
          = String.concat "" ((y +:+ sep) :: ((λ v, v +:+ sep) <$> l)) +:+ x).
  rewrite concat_cons by (by destruct l).
  by rewrite IH, concat_empty_cons, !append_assoc.
Qed.

Lemma cell_languages_record k v :
  cell {[ "codeiso2" := k; "languages" := v ]} "codeiso2" = k
  ∧ cell {[ "codeiso2" := k; "languages" := v ]} "languages" = v.
Proof. unfold cell. by simplify_map_eq. Qed.

Lemma concatenate_languages_Ok df df' :
  concatenate_languages df = Ok df' →
  codes df' = group_keys "codeiso2" (records df)
  ∧ ∀ r', r' ∈ records df' →
          cell r' "languages" = join ", " (languages_of df (cell r' "codeiso2")).
Proof.
  unfold concatenate_languages. intros H. inv_res. unfold codes. cbn [records].
  split.
  - rewrite <- list_fmap_compose. rewrite <- (list_fmap_id (group_keys _ _)) at 2.
    apply list_fmap_ext. intros _ k _. apply cell_languages_record.
  - intros r' (k & -> & _)%list_elem_of_fmap.
    destruct (cell_languages_record k
                (join ", " ((λ r, cell r "languages")
                     <$> filter (λ r, cell r "codeiso2" = k) (records df)))) as [-> ->].
    done.
Qed.

(** C4. The rows of the languages frame that share a code become one
    row whose value is the values of those rows, in the order of the
    query result, joined by ", "; the mapping built from it gives every
    code of the frame that string. A separator follows every value but
    the last, so none trails; the values are not sorted. *)
Theorem languages_joined_in_order df df' :
  concatenate_languages df = Ok df' →
  NoDup (codes df')
  ∧ (∀ code, code ∈ codes df' ↔ ∃ r, r ∈ records df ∧ cell r "codeiso2" = code)
  ∧ (∀ r', r' ∈ records df' →
       cell r' "languages" = join ", " (languages_of df (cell r' "codeiso2")))
  ∧ (∀ d r, to_mapping df' "codeiso2" "languages" = Ok d → r ∈ records df →
       d !! cell r "codeiso2" = Some (join ", " (languages_of df (cell r "codeiso2"))))
  ∧ (∀ (values : list string) (last : string),
       join ", " (values ++ [last])%list
       = String.concat "" ((λ v, v +:+ ", ") <$> values) +:+ last)
  ∧ join ", " ["French"; "Breton"; "Alsatian"] = "French, Breton, Alsatian".
Proof.
  intros [Hkeys Hval]%concatenate_languages_Ok.
  assert (NoDup (codes df')) as Hnd by (rewrite Hkeys; apply group_keys_NoDup).
  split; [done|]. split; [|split; [done|]; split; [|split; [apply join_snoc|done]]].
  - intros code. by rewrite Hkeys, elem_of_group_keys.
  - intros d r ->%to_mapping_Ok Hr.
    assert (cell r "codeiso2" ∈ codes df') as Hin.
    { rewrite Hkeys. apply elem_of_group_keys. eauto. }
    apply list_elem_of_fmap in Hin as (r' & Hc & Hr').
    rewrite Hc, (foldl_insert_record_lookup "codeiso2" "languages" _ ∅ r' Hnd Hr').
    f_equal. by apply Hval.
Qed.

(** ** The base table and the exported tables *)

Section Tables.

Context (K : SortKind) (unquote : string → string).
Context (endpoint : query → res (list binding)) (today : string).

Lemma base_pass_Ok df :
  base_pass endpoint = Ok df →
  ∃ result,
    endpoint (build_basic_query basic_properties) = Ok result
    ∧ NoDup (codes df)
    ∧ Forall (λ r, cell r "codeiso2" ≠ ""
                   ∧ r ∈ records (DataFrame_fillna (restructure_json result)))
             (records df).
Proof.
  unfold base_pass, fetch_wikidata. intros H. inv_res.
  rename x into result, x0 into kept. exists result. split; [done|].
  split; [by eapply groupby_first_NoDup|].
  apply Forall_forall. intros r Hr%(groupby_first_subseteq _ _ _ H).
  match goal with Hd : drop_empty _ _ = _ |- _ => apply drop_empty_Ok in Hd as [_ Hd] end.
  match goal with Hd : records kept = _ |- _ => rewrite Hd in Hr end.
  by apply list_elem_of_filter in Hr.
Qed.

Lemma attach_codes df key dictval df' :
  attach df key dictval = Ok df' → key ≠ "codeiso2" → codes df' = codes df.
Proof.
  unfold attach. intros H Hne. inv_res.
  apply setitem_codes; [done|]. rewrite length_fmap. by eapply getitem_length.
Qed.

Lemma attach_all_codes kvs : ∀ df df',
  foldl (λ acc kv, df ← acc; attach df kv.1 kv.2) (Ok df) kvs = Ok df' →
  Forall (λ kv : string * gmap string string, kv.1 ≠ "codeiso2") kvs →
  codes df' = codes df.
Proof.
  induction kvs as [|kv kvs IH]; simpl; intros df df' H Hall.
  - by inv_res.
  - apply Forall_cons in Hall as [Hkv Hall].
    destruct (attach df kv.1 kv.2) as [df1|e] eqn:Ha.
    + rewrite (IH _ _ H Hall). by eapply attach_codes.
    + exfalso. clear -H. induction kvs as [|? ? IH']; simpl in *; [done|eauto].
Qed.

Lemma mapM_keys {A} (f : A → res (string * gmap string string)) (ps : list A)
    (name : A → string) kvs :
  (∀ p kv, f p = Ok kv → kv.1 = name p) →
  mapM f ps = Ok kvs → kvs.*1 = name <$> ps.
Proof.
  intros Hf H%mapM_Ok. induction H as [|p kv ps kvs Hp _ IH]; csimpl; [done|].
  by rewrite IH, (Hf _ _ Hp).
Qed.

Lemma gather_codes raw :
  gather K unquote endpoint = Ok raw →
  ∃ base, base_pass endpoint = Ok base ∧ codes raw = codes base.
Proof.
  unfold gather. intros H.
  apply bind_Ok in H as (base & Hbase & H).
  apply bind_Ok in H as (dfl0 & _ & H).
  apply bind_Ok in H as (dfl & _ & H).
  apply bind_Ok in H as (cl & Hcl & H).
  apply bind_Ok in H as (cd & Hcd & H).
  exists base. split; [done|].
  eapply attach_all_codes; [exact H|].
  apply Forall_fmap with (f := fst) (P := λ k : string, k ≠ "codeiso2").
  rewrite fmap_app.
  apply (mapM_keys _ _ pname) in Hcl as ->;
    [|intros p kv Hp; cbv beta in Hp; by inv_res].
  apply (mapM_keys _ _ pname) in Hcd as ->;
    [|intros p kv Hp; cbv beta in Hp; by inv_res].
  repeat constructor; by intros [=].
Qed.
Lemma format_area_length col col' : format_area col = Ok col' → length col' = length col.
Proof.
  unfold format_area. intros H. apply bind_Ok in H as (fl & Hfl%mapM_length & H).
  case_bool_decide; [done|]. inv_res. by rewrite !length_fmap.
Qed.

Ltac step_setitem H :=
  match type of H with
  | context [setitem ?d ?k ?v] =>
      lazymatch d with context [setitem _ _ _] => fail | _ => idtac end;
      let L := fresh "L" in
      let E := fresh "E" in
      assert (length v = length (records d)) as L
        by (rewrite ?length_fmap; congruence);
      pose proof (setitem_codes d k v ltac:(by intros [=]) L) as E;
      apply (setitem_length d k v) in L;
      let d' := fresh "df" in
      set (d' := setitem d k v) in *
  end.

Lemma render_codes df df' :
  render unquote df = Ok df' → codes df' = codes df.
Proof.
  unfold render. intros H.
  repeat match goal with
    | H : mbind _ _ = Ok _ |- _ =>
        let col := fresh "col" in
        let Hc := fresh "Hc" in
        apply bind_Ok in H as (col & Hc & H);
        first [ apply getitem_length in Hc
              | apply format_area_length in Hc
              | apply mapM_length in Hc ];
        try step_setitem H
    end.
  inv_res. congruence.
Qed.
(** C1. After the base pass every record of the base table has a
    non-empty country code and no code occurs twice; every record of the
    base table is a record of the query result; and the raw and the
    formatted export tables hold the codes of the base table, row by
    row, so that an entity without a code is in no exported table. *)
Theorem base_table_codes base :
  base_pass endpoint = Ok base →
  Forall (λ r, cell r "codeiso2" ≠ "") (records base)
  ∧ NoDup (codes base)
  ∧ (∃ result, endpoint (build_basic_query basic_properties) = Ok result
       ∧ records base ⊆ records (DataFrame_fillna (restructure_json result)))
  ∧ (∀ brut, gather K unquote endpoint = Ok brut →
       codes brut = codes base ∧ Forall (λ r, cell r "codeiso2" ≠ "") (records brut))
  ∧ (∀ brut df, gather K unquote endpoint = Ok brut → render unquote brut = Ok df →
       codes df = codes base ∧ Forall (λ r, cell r "codeiso2" ≠ "") (records df)).
Proof.
  intros Hbase. destruct (base_pass_Ok _ Hbase) as (result & Hres & Hnd & Hall).
  assert (Forall (λ c, c ≠ "") (codes base)) as Hcodes.
  { unfold codes. rewrite Forall_fmap. eapply Forall_impl; [exact Hall|]. by intros r [? _]. }
  assert (∀ df, codes df = codes base →
                Forall (λ r, cell r "codeiso2" ≠ "") (records df)) as Hrows.
  { intros df E. rewrite <- E in Hcodes. unfold codes in Hcodes.
    by rewrite Forall_fmap in Hcodes. }
  split; [by apply Hrows|]. split; [done|]. split.
  { exists result. split; [done|]. intros r Hr.
    rewrite Forall_forall in Hall. by apply Hall. }
  split.
  - intros brut (base' & Hb' & E)%gather_codes.
    rewrite Hbase in Hb'. inv_res. auto.
  - intros brut df (base' & Hb' & E)%gather_codes E'%render_codes.
    rewrite Hbase in Hb'. inv_res.
    assert (codes df = codes base') by congruence. auto.
Qed.
(** ** The Lua text *)

(** The text as the wiki module reads it: the preamble, the list of the
    codes, one named sub-table of entries per name, the date. *)
Definition lua_text (codes : list string) (tables : list (string * list string))
    (date : string) : string :=
  "-- begin data section" +:+ newline
  +:+ "data = {" +:+ newline +:+ newline
  +:+ "    countrylist = {" +:+ join ", " ((λ v, dquote +:+ v +:+ dquote) <$> codes)
  +:+ "}," +:+ newline +:+ newline
  +:+ String.concat "" ((λ t, lua_subtable t.1 t.2) <$> tables)
  +:+ "}" +:+ newline +:+ newline
  +:+ "last_update = " +:+ dquote +:+ date +:+ dquote
  +:+ newline +:+ "-- end data section".

(** The rows of a sub-table: the rows with a code, as code and value. *)
Definition coded (rows : list (gmap string string)) : list (gmap string string) :=
  filter (λ row, cell row "codeiso2" ≠ "") rows.

Lemma tabitem_Ok df item entries :
  tabitem df item = Ok entries → entries = lua_entry item <$> coded (records df).
Proof.
  unfold tabitem, coded. generalize (filter (λ row, cell row "codeiso2" ≠ "") (records df)).
  intros rows H%mapM_Ok.
  induction H as [|r e rows es Hr _ IH]; csimpl; [done|].
  case_decide; [|done]. by inv_res.
Qed.

Lemma lua_tables_Ok df (selected : list string) : ∀ acc text,
  foldl (λ acc item,
           mystr ← acc;
           if negb (String.eqb item "codeiso2") then
             entries ← tabitem df item;
             Ok (mystr +:+ lua_subtable item entries)
           else Ok mystr)
        (Ok acc) selected = Ok text →
  text = acc +:+ String.concat ""
           ((λ item, lua_subtable item (lua_entry item <$> coded (records df)))
              <$> filter (λ item, item ≠ "codeiso2") selected).
Proof.
  induction selected as [|item selected IH]; intros acc text H.
  - simpl in H. inv_res. csimpl. by rewrite append_empty_r.
  - cbn [foldl] in H. cbn [mbind res_bind] in H.
    rewrite filter_cons.
    destruct (String.eqb_spec item "codeiso2") as [->|Hne]; cbn [negb] in H.
    + rewrite decide_False by (by intros ?). by apply IH.
    + rewrite decide_True by done.
      destruct (tabitem df item) as [entries|e] eqn:Ht.
      * apply tabitem_Ok in Ht as ->. cbn [mbind res_bind] in H.
        apply IH in H as ->. rewrite fmap_cons, concat_empty_cons.
        by rewrite append_assoc.
      * exfalso. cbn [mbind res_bind] in H. clear -H.
        induction selected as [|? ? IH']; simpl in *; [done|eauto].
Qed.
Lemma process_lua_data_Ok df selected text :
  process_lua_data K today df selected = Ok text →
  ∃ sorted,
    sort_values K df "name" true = Ok sorted
    ∧ text = lua_text (unique (codes sorted))
               ((λ item, (item, lua_entry item <$> coded (records sorted)))
                  <$> filter (λ item, item ≠ "codeiso2") selected)
               today.
Proof.
  unfold process_lua_data. intros H.
  apply bind_Ok in H as (sorted & Hsorted & H).
  apply bind_Ok in H as (col & [-> _]%getitem_Ok & H).
  apply bind_Ok in H as (mystr & ->%lua_tables_Ok & H).
  exists sorted. split; [done|]. inv_res.
  unfold lua_text, codes. rewrite <- list_fmap_compose.
  rewrite !append_assoc. reflexivity.
Qed.

(** C9. The text holds one named sub-table for every requested property
    other than [codeiso2], in the order of the descriptor list; an entry
    maps a code to the quoted value of the property; the entries of a
    sub-table are the rows with a non-empty code, in the order of the
    table sorted by display name. *)
Theorem lua_subtables df selected text :
  process_lua_data K today df selected = Ok text →
  ∃ rows,
    rows ≡ₚ records df
    ∧ StronglySorted (λ a b, String.leb (cell a "name") (cell b "name")) rows
    ∧ text = lua_text (unique ((λ r, cell r "codeiso2") <$> rows))
               ((λ item, (item, lua_entry item <$> coded rows))
                  <$> filter (λ item, item ≠ "codeiso2") selected)
               today
    ∧ Forall (λ r, cell r "codeiso2" ≠ "") (coded rows)
    ∧ ∀ item r, lua_entry item r
                = cell r "codeiso2" +:+ " = " +:+ dquote +:+ cell r item +:+ dquote.
Proof.
  intros (sorted & (_ & Hperm & Hs)%sort_values_Ok & ->)%process_lua_data_Ok.
  exists (records sorted). repeat split; try done.
  apply Forall_forall. by intros r [? _]%list_elem_of_filter.
Qed.
(** ** End to end *)



End Tables.

(** ** Placeholders *)




(** ** Population *)

Lemma group3_short ds : (length ds ≤ 3)%nat → group3 ds = ds.
Proof.
  intros H. unfold group3.
  assert (commas_rev (rev ds) = rev ds) as ->; [|apply rev_involutive].
  assert (length (rev ds) ≤ 3)%nat as Hl by by rewrite length_rev.
  destruct (rev ds) as [|a [|b [|c [|d l]]]]; simpl in *; try done; lia.
Qed.

Lemma group3_snoc3 ds a b c :
  ds ≠ [] → group3 (ds ++ [a; b; c]) = (group3 ds ++ [","%char; a; b; c])%list.
Proof.
  intros Hne. unfold group3. rewrite rev_app_distr. simpl.
  destruct (rev ds) as [|x l] eqn:E.
  - apply (f_equal (@rev ascii)) in E. rewrite rev_involutive in E. by destruct Hne.
  - cbn [commas_rev rev]. by rewrite <- !app_assoc.
Qed.

Lemma digit_facts c :
  is_digit c = true →
  is_space c = false ∧ Ascii.eqb c "_" = false
  ∧ c ≠ "-"%char ∧ c ≠ "+"%char.
Proof. destruct c as [[] [] [] [] [] [] [] []]; by vm_compute. Qed.

Lemma lstrip_digit c l : is_digit c = true → lstrip (c :: l) = c :: l.
Proof. intros [Hs _]%digit_facts. cbn [lstrip]. by rewrite Hs. Qed.

Lemma strip_digits ds : Forall (λ c, is_digit c = true) ds → strip ds = ds.
Proof.
  intros Hall. unfold strip.
  assert (lstrip ds = ds) as ->.
  { destruct Hall; [done|]. by apply lstrip_digit. }
  assert (lstrip (rev ds) = rev ds) as ->; [|apply rev_involutive].
  assert (Forall (λ c, is_digit c = true) (rev ds)) as Hrev
    by (rewrite rev_alt; by apply Forall_reverse).
  destruct Hrev; [done|]. by apply lstrip_digit.
Qed.

Lemma drop_underscores_digits ds : ∀ prev,
  Ascii.eqb prev "_" = false → Forall (λ c, is_digit c = true) ds →
  drop_underscores prev ds = Some ds.
Proof.
  induction ds as [|c ds IH]; intros prev Hprev Hall; cbn [drop_underscores].
  - by rewrite Hprev.
  - apply Forall_cons in Hall as [Hc Hall].
    destruct (digit_facts c Hc) as (_ & Hu & _).
    rewrite Hu, Hc, andb_false_r. by rewrite IH.
Qed.

Lemma span_digits_all ds : Forall (λ c, is_digit c = true) ds → span_digits ds = (ds, []).
Proof. induction 1 as [|c ds Hc _ IH]; simpl; [done|]. by rewrite Hc, IH. Qed.

Lemma int_of_str_digits ds :
  ds ≠ [] → Forall (λ c, is_digit c = true) ds →
  int_of_str (string_of_list_ascii ds) = Ok (Z_of_digits ds).
Proof.
  intros Hne Hall. unfold int_of_str.
  rewrite list_ascii_of_string_of_list_ascii, strip_digits by done.
  rewrite drop_underscores_digits by done.
  destruct ds as [|c ds]; [done|].
  assert (split_sign (c :: ds) = (false, c :: ds)) as ->.
  { apply Forall_cons in Hall as [(_ & _ & ? & ?)%digit_facts _].
    unfold split_sign. destruct c as [[] [] [] [] [] [] [] []]; done. }
  by rewrite span_digits_all.
Qed.

(** C8. The empty population value renders as the empty string; every
    other value that [int] reads renders as that integer with a comma
    before every group of three digits counted from the right (so the
    value "0" renders as "0"), and a value that [int] does not read
    raises its error. A string of decimal digits is read as its number. *)
Theorem population_rendering :
  format_population "" = Ok ""
  ∧ (∀ x, x ≠ "" → format_population x = n ← int_of_str x; Ok (format_int_comma n))
  ∧ (∀ ds, ds ≠ [] → Forall (λ c, is_digit c = true) ds →
       format_population (string_of_list_ascii ds)
       = Ok (format_int_comma (Z_of_digits ds)))
  ∧ (∀ n, (0 ≤ n)%Z →
       format_int_comma n
       = string_of_list_ascii (group3 (list_ascii_of_string (str_of_Z n))))
  ∧ (∀ ds, (length ds ≤ 3)%nat → group3 ds = ds)
  ∧ (∀ ds a b c, ds ≠ [] →
       group3 (ds ++ [a; b; c]) = (group3 ds ++ [","%char; a; b; c])%list)
  ∧ format_population "83149300" = Ok "83,149,300"
  ∧ format_population "999" = Ok "999"
  ∧ format_population "0" = Ok "0".
Proof.
  split; [done|]. split; [|split; [|split; [|split; [|split]]]].
  - intros x Hx. unfold format_population.
    by destruct (String.eqb_spec x "").
  - intros ds Hne Hall. unfold format_population.
    destruct (String.eqb_spec (string_of_list_ascii ds) "") as [E|_].
    + apply (f_equal list_ascii_of_string) in E.
      rewrite list_ascii_of_string_of_list_ascii in E. by destruct Hne.
    + cbn [negb]. by rewrite int_of_str_digits.
  - intros n Hn. unfold format_int_comma.
    destruct (Z.ltb_spec n 0); [lia|]. by rewrite Z.abs_eq.
  - apply group3_short.
  - apply group3_snoc3.
  - by vm_compute.
Qed.

Lemma zero_population_is_not_empty :
  format_population "0" = Ok "0" ∧ format_population "0" ≠ Ok "".
Proof. split; [by vm_compute|]. by vm_compute. Qed.

(** ** Area *)

Lemma round_half_even_nearest (q : Q) :
  (inject_Z (Float.round_half_even q) - (1 # 2) <= q
   ∧ q <= inject_Z (Float.round_half_even q) + (1 # 2))%Q.
Proof.
  unfold Float.round_half_even.
  pose proof (Qfloor_le q) as Hlo. pose proof (Qlt_floor q) as Hhi.
  rewrite inject_Z_plus in Hhi. change (inject_Z 1) with 1%Q in Hhi.
  destruct (Qcompare_spec (q - inject_Z (Qfloor q)) (1 # 2)) as [E|Hlt|Hgt].
  - destruct (Z.even (Qfloor q)); rewrite ?inject_Z_plus;
      change (inject_Z 1) with 1%Q; split; lra.
  - split; lra.
  - rewrite inject_Z_plus. change (inject_Z 1) with 1%Q. split; lra.
Qed.

(** The rendering of one area value, once read as a float. *)
Definition render_area (x : Float.float) : string :=
  let y := if Float.geb x (Float.of_Z 100) then Float.np_round x else x in
  let s := Float.format_comma y in
  if endswith s ".0" then drop_last 2 s else s.

Lemma format_area_Ok col xs :
  col ≠ [] → mapM Float.float_of_str col = Ok xs →
  format_area col = Ok (render_area <$> xs).
Proof.
  intros Hne Hxs. unfold format_area. rewrite Hxs. cbn [mbind res_bind].
  rewrite bool_decide_eq_false_2.
  - f_equal. by rewrite <- !list_fmap_compose.
  - intros E. apply mapM_length in Hxs. apply (f_equal length) in E.
    rewrite !length_fmap in E. destruct col; simpl in *; [done|lia].
Qed.

(** C7. Every area value of a column whose values all read as floats
    is rendered from its float: a float at or above 100 is first rounded
    to the nearest whole number (ties to even), a smaller float is kept
    as it is; the float is then written with thousands separators, and a
    final ".0" is cut. In particular 83871.4 renders as "83,871" and
    61.2 as "61.2". *)
Theorem area_rendering :
  (∀ col xs,
     col ≠ [] → mapM Float.float_of_str col = Ok xs →
     format_area col = Ok (render_area <$> xs))
  ∧ (∀ x,
       render_area x
       = let s := Float.format_comma
                    (if Float.geb x (Float.of_Z 100) then Float.np_round x else x) in
         if endswith s ".0" then drop_last 2 s else s)
  ∧ (∀ s m e,
       Float.np_round (S754_finite s m e)
       = if (0 <=? e)%Z then S754_finite s m e
         else let n := Float.round_half_even (Float.magnitude m e) in
              binary_normalize Float.prec Float.emax (if s then - n else n)%Z 0 s)
  ∧ (∀ q, (inject_Z (Float.round_half_even q) - (1 # 2) <= q
           ∧ q <= inject_Z (Float.round_half_even q) + (1 # 2))%Q)
  ∧ format_area ["83871.4"] = Ok ["83,871"]
  ∧ format_area ["61.2"] = Ok ["61.2"]
  ∧ format_area ["100"; "99.95"; "100.5"; "101.5"; "17098246"; "0.44"]
    = Ok ["100"; "99.95"; "100"; "102"; "17,098,246"; "0.44"].
Proof.
  split; [apply format_area_Ok|]. split; [done|]. split; [done|].
  split; [apply round_half_even_nearest|].
  repeat split; by vm_compute.
Qed.

(** * A synthetic run

    Two entities, France with its code and an entity without a code,
    and the answers of the service to the six queries. *)

Module Example.

Definition literal (s : string) : gmap string string :=
  {[ "type" := "literal"; "value" := s ]}.

Definition france : binding :=
  {[ "country" := literal "http://www.wikidata.org/entity/Q142";
     "countryLabel" := literal "France";
     "wikipedia" := literal "https://en.wikipedia.org/wiki/France";
     "codeiso2" := literal "FR";
     "area_km2" := literal "643801";
     "flag_image" := literal "http://commons.wikimedia.org/wiki/Special:FilePath/Flag.svg";
     "osm_rel_id" := literal "1403916" ]}.

Definition uncoded : binding :=
  {[ "country" := literal "http://www.wikidata.org/entity/Q1";
     "countryLabel" := literal "Atlantis";
     "wikipedia" := literal "https://en.wikipedia.org/wiki/Atlantis";
     "area_km2" := literal "61.2" ]}.

Definition list_rows (name : string) : list binding :=
  if String.eqb name "continent" then
    [ {[ "codeiso2" := literal "FR"; "continentLabel" := literal "Europe" ]} ]
  else if String.eqb name "languages" then
    [ {[ "codeiso2" := literal "FR"; "languagesLabel" := literal "French" ]};
      {[ "languagesLabel" := literal "Atlantean" ]};
      {[ "codeiso2" := literal "FR"; "languagesLabel" := literal "Breton" ]} ]
  else
    [ {[ "codeiso2" := literal "FR"; "locator_map" := literal "EU-France.svg" ]};
      {[ "codeiso2" := literal "FR"; "locator_map" := literal "on the globe" ]};
      {[ "codeiso2" := literal "FR"; "locator_map" := literal "orthographic projection" ]} ].

Definition dated_rows (name : string) : list binding :=
  if String.eqb name "population" then
    [ {[ "codeiso2" := literal "FR"; "population" := literal "66000000";
         "date_population" := literal "2020-01-01" ]};
      {[ "codeiso2" := literal "FR"; "population" := literal "68000000";
         "date_population" := literal "2022-06-01" ]} ]
  else
    [ {[ "codeiso2" := literal "FR"; "gdp_bd" := literal "2780000000000";
         "date_gdp_bd" := literal "2022-01-01" ]} ].

Definition endpoint (q : query) : res (list binding) :=
  match q with
  | build_basic_query _ => Ok [france; uncoded]
  | build_list_query p => Ok (list_rows (pname p))
  | build_dated_query p => Ok (dated_rows (pname p))
  end.



Definition today : string := "2026-11-04".

Definition get {A} (dflt : A) (m : res A) : A :=
  match m with Ok a => a | Raise _ => dflt end.

Definition base : DataFrame := get (mkDF ∅ []) (base_pass endpoint).

Definition out : files :=
  get (mkFiles (mkDF ∅ []) (mkDF ∅ []) "") (main stable_kind id endpoint today).

End Example.

(** ** The theorems at the synthetic run *)

Lemma base_table_codes_witness :
  base_pass Example.endpoint = Ok Example.base
  ∧ Forall (λ r, cell r "codeiso2" ≠ "") (records Example.base)
  ∧ NoDup (codes Example.base).
Proof.
  assert (base_pass Example.endpoint = Ok Example.base) as H
    by (vm_compute; reflexivity).
  split; [exact H|].
  destruct (base_table_codes stable_kind id Example.endpoint Example.base H)
    as (H1 & H2 & _).
  exact (conj H1 H2).
Defined.

Lemma latest_value_wins_witness :
  ∃ d, restructure_dated_property stable_kind
         [population_row "FR" "68000000" "2022-06-01";
          population_row "FR" "66000000" "2020-01-01"] "population" = Ok d
       ∧ d !! "FR" = Some "68000000".
Proof.
  apply (proj2 (latest_value_wins stable_kind) "FR" "66000000" "68000000").
  - discriminate.
  - apply Permutation_swap.
Defined.




Definition languages_frame : DataFrame :=
  DataFrame_fillna [ {[ "codeiso2" := "FR"; "languages" := "French" ]};
                     {[ "codeiso2" := "DE"; "languages" := "German" ]};
                     {[ "codeiso2" := "FR"; "languages" := "Breton" ]} ].

Definition languages_joined : DataFrame :=
  Example.get (mkDF ∅ []) (concatenate_languages languages_frame).

Lemma languages_joined_in_order_witness :
  concatenate_languages languages_frame = Ok languages_joined
  ∧ NoDup (codes languages_joined)
  ∧ ∀ r', r' ∈ records languages_joined →
          cell r' "languages"
          = join ", " (languages_of languages_frame (cell r' "codeiso2")).
Proof.
  assert (concatenate_languages languages_frame = Ok languages_joined) as H
    by (vm_compute; reflexivity).
  split; [exact H|].
  destruct (languages_joined_in_order languages_frame languages_joined H)
    as (H1 & _ & H2 & _).
  exact (conj H1 H2).
Defined.


Lemma lua_subtables_witness :
  process_lua_data stable_kind Example.today
    (countries_wikidata_formated Example.out) selected_property
  = Ok (countries_wikidata_lua Example.out)
  ∧ ∃ rows,
      rows ≡ₚ records (countries_wikidata_formated Example.out)
      ∧ countries_wikidata_lua Example.out
        = lua_text (unique ((λ r, cell r "codeiso2") <$> rows))
            ((λ item, (item, lua_entry item <$> coded rows))
               <$> filter (λ item, item ≠ "codeiso2") selected_property)
            Example.today.
Proof.
  assert (process_lua_data stable_kind Example.today
            (countries_wikidata_formated Example.out) selected_property
          = Ok (countries_wikidata_lua Example.out)) as H
    by (vm_compute; reflexivity).
  split; [exact H|].
  destruct (lua_subtables stable_kind Example.today _ _ _ H)
    as (rows & H1 & _ & H2 & _).
  exists rows. exact (conj H1 H2).
Defined.


(** ** Runs that stop, and the table without a sub-table *)


(** [codeiso2] is a requested property and the text of the run has no
    sub-table of that name, while it has one for the next property. *)
Lemma no_subtable_for_codeiso2 :
  "codeiso2" ∈ selected_property
  ∧ main stable_kind id Example.endpoint Example.today = Ok Example.out
  ∧ String.index 0 "codeiso2 = {" (countries_wikidata_lua Example.out) = None
  ∧ String.index 0 "continent = {" (countries_wikidata_lua Example.out) ≠ None.
Proof.
  split; [unfold selected_property; simpl; left|].
  split; [vm_compute; reflexivity|]. split; by vm_compute.
Qed.

(** * Further properties of the script *)

(** ** The queries *)

Lemma optional_clauses_Some properties :
  ∃ cs, Sparql.optional_clauses properties = Some cs ∧ length cs = length properties.
Proof.
  induction properties as [|a properties (cs & IH & Hlen)]; [by exists []|].
  cbn [Sparql.optional_clauses]. rewrite IH.
  assert (∃ c, Sparql.optional_clause a = Some c) as [c ->]
    by (destruct a; vm_compute; eauto).
  exists (c :: cs). simpl. by rewrite Hlen.
Qed.

(** Every builder fills all the conversions of its template, whatever
    the property: no query raises the [TypeError] of [%]. *)
Theorem queries_are_formed (q : query) : is_Some (Sparql.text q).
Proof.
  destruct q as [properties|p|p]; unfold Sparql.text.
  - unfold Sparql.build_basic_query, Sparql.optional_string.
    destruct (optional_clauses_Some properties) as (cs & -> & _).
    generalize (Sparql.select_string properties)
               (String.concat (newline +:+ "        ") cs).
    intros s o. vm_compute. eauto.
  - destruct p as [name id d t l]. destruct l; vm_compute; eauto.
  - destruct p as [name id d t l]. vm_compute. eauto.
Qed.

(** ** Bindings and frames *)

(** [restructure_json] keeps the bindings one to one and in order; a row
    has exactly the variables of its binding, each with the [value]
    field of its JSON object, or [""] when the object has none. A
    variable the binding lacks is absent from the row, not empty. *)
Theorem restructure_json_rows (bindings : list binding) :
  length (restructure_json bindings) = length bindings
  ∧ ∀ i item, bindings !! i = Some item →
      ∃ row, restructure_json bindings !! i = Some row
             ∧ dom row = dom item
             ∧ (∀ var val, item !! var = Some val →
                           row !! var = Some (default "" (val !! "value")))
             ∧ (∀ var, item !! var = None → row !! var = None).
Proof.
  unfold restructure_json. split; [apply length_fmap|].
  intros i item Hi. eexists. rewrite list_lookup_fmap, Hi. split; [done|].
  split; [apply dom_fmap_L|]. split.
  - intros var val Hvar. by rewrite lookup_fmap, Hvar.
  - intros var Hvar. by rewrite lookup_fmap, Hvar.
Qed.

Lemma dom_fillna cols r : dom r ⊆ cols → dom (fillna cols r) = cols.
Proof.
  intros Hsub. unfold fillna. rewrite dom_union_L, dom_gset_to_gmap. set_solver.
Qed.

(** The frame of a query result is rectangular: every record has exactly
    the columns of the frame, the rows are those of the result in
    order, a value of a row is kept and a missing one is [""]. A result
    without rows gives a frame without columns. *)
Theorem frame_of_result_is_rectangular (rows : list (gmap string string)) :
  let df := DataFrame_fillna rows in
  Forall (λ r, dom r = columns df) (records df)
  ∧ length (records df) = length rows
  ∧ (∀ i r, rows !! i = Some r →
       ∃ r', records df !! i = Some r'
             ∧ (∀ c v, r !! c = Some v → r' !! c = Some v)
             ∧ (∀ c, c ∈ columns df → r !! c = None → r' !! c = Some ""))
  ∧ (rows = [] → columns df = ∅).
Proof.
  cbn zeta. split; [|split; [|split]].
  - cbn [records DataFrame_fillna]. rewrite Forall_fmap. apply Forall_forall.
    intros r Hr. cbn [columns compose]. apply dom_fillna.
    intros c Hc. apply elem_of_union_list. exists (dom r). split; [|done].
    apply list_elem_of_fmap. eauto.
  - cbn [records DataFrame_fillna]. apply length_fmap.
  - intros i r Hi. eexists. cbn [records DataFrame_fillna].
    rewrite list_lookup_fmap, Hi. split; [done|]. split.
    + intros c v Hc. unfold fillna. rewrite lookup_union, Hc. by rewrite union_Some_l.
    + intros c Hc Hnone. unfold fillna.
      rewrite lookup_union, Hnone, lookup_gset_to_gmap. by rewrite option_guard_True.
  - by intros ->.
Qed.

(** ** The order of the groups *)

Lemma leb_ne_ltb a b : String.leb a b = true → a ≠ b → String.ltb a b = true.
Proof.
  unfold String.leb, String.ltb. intros Hle Hne.
  destruct (String.compare a b) eqn:E; try done.
  by apply String.compare_eq_iff in E.
Qed.

Lemma StronglySorted_NoDup_strict (l : list string) :
  StronglySorted (λ a b, String.leb a b) l → NoDup l →
  StronglySorted (λ a b, String.ltb a b = true) l.
Proof.
  induction 1 as [|a l Hs IH Hall]; intros Hnd; [constructor|].
  apply NoDup_cons in Hnd as [Hnotin Hnd]. constructor; [by apply IH|].
  apply Forall_forall. intros b Hb. rewrite Forall_forall in Hall.
  apply leb_ne_ltb; [by apply Is_true_true, Hall|]. by intros ->.
Qed.

(** [groupby(...).first().reset_index()] leaves the rows in strictly
    ascending order of the key, each row being a row of the frame: the
    base table is sorted by country code, whatever the order of the
    query result. *)
Theorem groups_are_sorted_by_key df c df' :
  groupby_first df c = Ok df' →
  StronglySorted (λ a b, String.ltb a b = true) ((λ r, cell r c) <$> records df')
  ∧ records df' ⊆ records df
  ∧ columns df' = columns df.
Proof.
  intros H. pose proof (groupby_first_subseteq _ _ _ H) as Hsub.
  pose proof (groupby_first_NoDup _ _ _ H) as Hnd.
  apply groupby_first_Ok in H as (Hcols & Hkeys & _).
  split; [|done]. apply StronglySorted_NoDup_strict; [|done].
  rewrite Hkeys. unfold group_keys. apply insertion_sort_sorted.
  - intros x y. destruct (String.leb_total x y) as [->| ->]; [by left|by right].
  - intros x y z H1%Is_true_true H2%Is_true_true. apply Is_true_true.
    by eapply StrOrd.leb_trans.
Qed.

Definition languages_first : DataFrame :=
  Example.get (mkDF ∅ []) (groupby_first languages_frame "codeiso2").

Lemma groups_are_sorted_by_key_witness :
  groupby_first languages_frame "codeiso2" = Ok languages_first
  ∧ StronglySorted (λ a b, String.ltb a b = true)
      ((λ r, cell r "codeiso2") <$> records languages_first).
Proof.
  assert (groupby_first languages_frame "codeiso2" = Ok languages_first) as H
    by (vm_compute; reflexivity).
  exact (conj H (proj1 (groups_are_sorted_by_key _ _ _ H))).
Defined.

(** ** Dated properties: errors and undated statements *)

Lemma leb_empty_r d : String.leb d "" = true → d = "".
Proof. by destruct d. Qed.

(** A statement without a date never wins over a dated statement of
    the same code: when a row of a code has a date, the value resolved
    for the code is that of a row with a date. *)
Theorem undated_never_beats_dated K rows name d r0 :
  restructure_dated_property K rows name = Ok d →
  r0 ∈ rows → cell r0 "codeiso2" ≠ "" → cell r0 ("date_" +:+ name) ≠ "" →
  ∃ r, r ∈ rows ∧ cell r "codeiso2" = cell r0 "codeiso2"
       ∧ cell r ("date_" +:+ name) ≠ ""
       ∧ d !! cell r0 "codeiso2" = Some (cell r name).
Proof.
  intros Hd Hr0 Hcode Hdate.
  destruct (dated_resolution K _ _ _ Hd) as [Hsome Hall].
  destruct (Hall r0 Hr0 Hcode) as [v Hv].
  destruct (Hsome _ _ Hv) as (_ & r & Hr & Hc & Hval & Hmax).
  exists r. split; [done|]. split; [done|]. split; [|by rewrite Hv, Hval].
  intros E. specialize (Hmax r0 Hr0 eq_refl). rewrite E in Hmax.
  by apply leb_empty_r in Hmax.
Qed.

Lemma undated_never_beats_dated_witness :
  ∃ r, r ∈ [population_row "FR" "1" ""; population_row "FR" "2" "2001-01-01"]
       ∧ cell r "date_population" ≠ "".
Proof.
  set (rows := [population_row "FR" "1" ""; population_row "FR" "2" "2001-01-01"]).
  set (d := Example.get ∅ (restructure_dated_property stable_kind rows "population")).
  assert (restructure_dated_property stable_kind rows "population" = Ok d) as H
    by (vm_compute; reflexivity).
  destruct (undated_never_beats_dated stable_kind rows "population" d
              (population_row "FR" "2" "2001-01-01") H)
    as (r & Hr & _ & Hdate & _).
  - right. left.
  - vm_compute. discriminate.
  - vm_compute. discriminate.
  - exists r. exact (conj Hr Hdate).
Defined.

(** The errors of a dated property. The result has a column when some
    binding has the variable. Without a code column (so for an empty
    result) the resolution raises [KeyError "codeiso2"]; with codes and
    no date in any binding it raises the [KeyError] of the date column;
    with the three columns it does not fail. *)
Theorem dated_property_errors K (rows : list (gmap string string)) name :
  let has c := ∃ r, r ∈ rows ∧ is_Some (r !! c) in
  (¬ has "codeiso2" →
     restructure_dated_property K rows name = Raise (KeyError "codeiso2"))
  ∧ (has "codeiso2" → ¬ has ("date_" +:+ name) →
     restructure_dated_property K rows name = Raise (KeyError ("date_" +:+ name)))
  ∧ (has "codeiso2" → has ("date_" +:+ name) → has name →
     is_ok (restructure_dated_property K rows name) = true)
  ∧ restructure_dated_property K [] name = Raise (KeyError "codeiso2").
Proof.
  cbn zeta. setoid_rewrite <- elem_of_columns_fillna.
  unfold restructure_dated_property, drop_empty. split; [|split; [|split]].
  - intros Hc. by rewrite decide_False.
  - intros Hc Hd. rewrite decide_True by done. cbn [mbind res_bind].
    unfold sort_values. cbn [columns]. by rewrite decide_False.
  - intros Hc Hd Hn.
    destruct (dated_total K rows name Hc Hd Hn) as [d Hok].
    unfold restructure_dated_property, drop_empty in Hok. by rewrite Hok.
  - done.
Qed.

Lemma dated_property_errors_witness :
  restructure_dated_property stable_kind
    [ {[ "codeiso2" := "FR"; "population" := "1" ]} ] "population"
  = Raise (KeyError "date_population").
Proof.
  apply (proj1 (proj2 (dated_property_errors stable_kind
                         [ {[ "codeiso2" := "FR"; "population" := "1" ]} ] "population"))).
  - eexists. split; [left|]. exists "FR". reflexivity.
  - intros (r & ->%list_elem_of_singleton & [v Hv]). vm_compute in Hv. discriminate Hv.
Defined.

(** ** Continents *)

Lemma first_of_fmap c k (f : gmap string string → gmap string string) rows :
  (∀ r, cell (f r) c = cell r c) →
  first_of c k (f <$> rows) = f <$> first_of c k rows.
Proof.
  intros Hf. unfold first_of. rewrite filter_fmap.
  rewrite (list_filter_iff _ (λ r, cell r c = k)) by (intros r; by rewrite Hf).
  by destruct (filter _ rows).
Qed.

(** The continent of a code is the label of the first row of the code
    in the query result, with "Insular Oceania" and "Australian
    continent" replaced by "Oceania" and every other label unchanged;
    the frame keeps one row per code. Without a label column the step
    raises [KeyError "continentLabel"]. *)
Theorem continent_of_first_row df :
  (∀ df', clean_continent df = Ok df' →
     NoDup (codes df')
     ∧ ∀ r', r' ∈ records df' →
         ∃ r, first_of "codeiso2" (cell r' "codeiso2") (records df) = Some r
              ∧ cell r' "continent" = clean_continent_name (cell r "continentLabel"))
  ∧ ("continentLabel" ∉ columns df →
     clean_continent df = Raise (KeyError "continentLabel"))
  ∧ clean_continent_name "Insular Oceania" = "Oceania"
  ∧ clean_continent_name "Australian continent" = "Oceania"
  ∧ (∀ v, v ≠ "Insular Oceania" → v ≠ "Australian continent" →
          clean_continent_name v = v)
  ∧ (∀ v, clean_continent_name (clean_continent_name v) = clean_continent_name v).
Proof.
  assert (∀ v, v ≠ "Insular Oceania" → v ≠ "Australian continent" →
               clean_continent_name v = v) as Hother.
  { intros v H1 H2. unfold clean_continent_name. rewrite bool_decide_eq_false_2; [done|].
    rewrite !elem_of_cons, elem_of_nil. intros [?|[?|[]]]; congruence. }
  split; [|split; [|split; [done|split; [done|split; [done|]]]]].
  - intros df' H. unfold clean_continent in H.
    apply bind_Ok in H as (col & [-> _]%getitem_Ok & H).
    pose proof (groupby_first_NoDup _ _ _ H) as Hnd. split; [done|].
    apply groupby_first_Ok in H as (_ & _ & Hfirst). rewrite Forall_forall in Hfirst.
    intros r' Hr'. specialize (Hfirst r' Hr'). cbn [records setitem] in Hfirst.
    rewrite <- list_fmap_compose, zip_with_insert_fmap in Hfirst.
    rewrite first_of_fmap in Hfirst
      by (intros r; unfold cell; by rewrite lookup_insert_ne).
    destruct (first_of "codeiso2" (cell r' "codeiso2") (records df)) as [r|];
      [|done].
    exists r. split; [done|]. simpl in Hfirst. simplify_eq.
    unfold cell. by rewrite lookup_insert_eq.
  - intros Hc. unfold clean_continent, getitem. by rewrite decide_False.
  - intros v. destruct (decide (v = "Insular Oceania")) as [->|H1]; [done|].
    destruct (decide (v = "Australian continent")) as [->|H2]; [done|].
    rewrite (Hother v H1 H2). by apply Hother.
Qed.

(** ** The merge pass *)

Lemma fold_attach_Raise (kvs : list (string * gmap string string)) e :
  foldl (λ acc kv, df ← acc; attach df kv.1 kv.2) (Raise e) kvs = Raise e.
Proof. induction kvs as [|kv kvs IH]; [done|]. exact IH. Qed.

Lemma attach_column df key dictval df' c :
  attach df key dictval = Ok df' → key ≠ c →
  (λ r, cell r c) <$> records df' = (λ r, cell r c) <$> records df.
Proof.
  unfold attach. intros H Hne. inv_res.
  apply setitem_column; [done|]. rewrite length_fmap. by eapply getitem_length.
Qed.

Lemma attach_value df key dictval df' :
  attach df key dictval = Ok df' →
  (λ r, cell r key) <$> records df'
  = (λ code, default "" (dictval !! code)) <$> codes df.
Proof.
  unfold attach. intros H. apply bind_Ok in H as (col & [-> Hc]%getitem_Ok & H).
  inv_res.
  unfold codes, setitem. cbn [records].
  rewrite <- !list_fmap_compose, zip_with_insert_fmap, <- !list_fmap_compose.
  apply list_fmap_ext. intros _ r _. unfold compose, cell at 1.
  by rewrite lookup_insert_eq.
Qed.

Lemma attach_all_column (kvs : list (string * gmap string string)) c : ∀ df df',
  foldl (λ acc kv, df ← acc; attach df kv.1 kv.2) (Ok df) kvs = Ok df' →
  c ∉ kvs.*1 →
  (λ r, cell r c) <$> records df' = (λ r, cell r c) <$> records df.
Proof.
  induction kvs as [|kv kvs IH]; intros df df' H Hc.
  - simpl in H. by inv_res.
  - cbn [foldl] in H. cbn [mbind res_bind] in H.
    apply not_elem_of_cons in Hc as [Hne Hc].
    destruct (attach df kv.1 kv.2) as [df1|e] eqn:Ha;
      [|by rewrite fold_attach_Raise in H].
    rewrite (IH _ _ H Hc). by eapply attach_column.
Qed.

Lemma attach_all_value (kvs : list (string * gmap string string)) : ∀ df df' k d,
  foldl (λ acc kv, df ← acc; attach df kv.1 kv.2) (Ok df) kvs = Ok df' →
  NoDup kvs.*1 → "codeiso2" ∉ kvs.*1 → (k, d) ∈ kvs →
  (λ r, cell r k) <$> records df'
  = (λ code, default "" (d !! code)) <$> codes df.
Proof.
  induction kvs as [|kv kvs IH]; intros df df' k d H Hnd Hcode Hin.
  - by apply not_elem_of_nil in Hin.
  - cbn [foldl] in H. cbn [mbind res_bind] in H.
    destruct (attach df kv.1 kv.2) as [df1|e] eqn:Ha;
      [|by rewrite fold_attach_Raise in H].
    apply NoDup_cons in Hnd as [Hfresh Hnd].
    apply not_elem_of_cons in Hcode as [Hne Hcode].
    apply elem_of_cons in Hin as [<-|Hin].
    + rewrite (attach_all_column kvs k _ _ H Hfresh). by eapply attach_value.
    + rewrite (IH _ _ _ _ H Hnd Hcode Hin). f_equal.
      eapply attach_column; [exact Ha|]. by intros E.
Qed.

(** The merge pass adds to the base table the columns of the five
    list and dated properties and changes nothing else: a column of
    another name has in the raw table the values it has in the base
    table, row by row; and the column of a merged property holds, for
    every row, the value its mapping gives the code of the row, or [""]. *)
Theorem merge_pass_columns K unquote endpoint brut :
  gather K unquote endpoint = Ok brut →
  ∃ base dfl cl cd,
    base_pass endpoint = Ok base
    ∧ conversion_list_dict dfl = Ok cl
    ∧ conversion_date_dict K endpoint = Ok cd
    ∧ (cl ++ cd)%list.*1 = ["continent"; "languages"; "locator_map"; "population"; "gdp_bd"]
    ∧ (∀ c, c ∉ (cl ++ cd)%list.*1 →
            (λ r, cell r c) <$> records brut = (λ r, cell r c) <$> records base)
    ∧ (∀ k d, (k, d) ∈ (cl ++ cd)%list →
              (λ r, cell r k) <$> records brut
              = (λ code, default "" (d !! code)) <$> codes base).
Proof.
  unfold gather. intros H.
  apply bind_Ok in H as (base & Hbase & H).
  apply bind_Ok in H as (dfl0 & _ & H).
  apply bind_Ok in H as (dfl & _ & H).
  apply bind_Ok in H as (cl & Hcl & H).
  apply bind_Ok in H as (cd & Hcd & H).
  exists base, dfl, cl, cd.
  assert ((cl ++ cd)%list.*1
          = ["continent"; "languages"; "locator_map"; "population"; "gdp_bd"]) as Hkeys.
  { rewrite fmap_app.
    pose proof Hcl as Hcl'. pose proof Hcd as Hcd'.
    apply (mapM_keys _ _ pname) in Hcl' as ->;
      [|intros p kv Hp; cbv beta in Hp; by inv_res].
    apply (mapM_keys _ _ pname) in Hcd' as ->;
      [|intros p kv Hp; cbv beta in Hp; by inv_res].
    reflexivity. }
  repeat split; try done.
  - intros c Hc. by eapply attach_all_column.
  - intros k d Hin. eapply attach_all_value; [exact H|..|exact Hin]; rewrite Hkeys.
    + repeat constructor; set_solver.
    + set_solver.
Qed.

(** ** Rendering keeps the other columns *)

Ltac step_column c H :=
  match type of H with
  | context [setitem ?d ?k ?v] =>
      lazymatch d with context [setitem _ _ _] => fail | _ => idtac end;
      let L := fresh "L" in
      let E := fresh "E" in
      assert (length v = length (records d)) as L
        by (rewrite ?length_fmap; congruence);
      pose proof (setitem_column d k v c ltac:(congruence) L) as E;
      apply (setitem_length d k v) in L;
      let d' := fresh "df" in
      set (d' := setitem d k v) in *
  end.

(** Rendering rewrites the columns [area_km2], [population], [gdp_bd],
    [flag_image] and [wikipedia] and adds [name] and [wikidata_id]; every
    other column (the code, the continent, the languages, the locator
    map, the OSM relation, the label, the entity) has in the formatted
    table the values of the raw table, row by row, and the table keeps
    its number of rows. *)
Theorem render_keeps_other_columns unquote df df' c :
  render unquote df = Ok df' →
  c ∉ ["name"; "area_km2"; "population"; "gdp_bd"; "flag_image"; "wikipedia";
       "wikidata_id"] →
  (λ r, cell r c) <$> records df' = (λ r, cell r c) <$> records df
  ∧ length (records df') = length (records df).
Proof.
  unfold render. intros H Hc.
  rewrite !not_elem_of_cons in Hc. destruct Hc as (?&?&?&?&?&?&?&_).
  repeat match goal with
    | H : mbind _ _ = Ok _ |- _ =>
        let col := fresh "col" in
        let Hcol := fresh "Hcol" in
        apply bind_Ok in H as (col & Hcol & H);
        first [ apply getitem_length in Hcol
              | apply format_area_length in Hcol
              | apply mapM_length in Hcol ];
        try step_column c H
    end.
  inv_res. split; congruence.
Qed.

Lemma setitem_same df key values c :
  key = c → length values = length (records df) →
  (λ r, cell r c) <$> records (setitem df key values) = values.
Proof.
  intros <-. unfold setitem. cbn [records]. generalize (records df). intros rows.
  revert values. induction rows as [|r rows IH]; intros [|v values] Hlen; try done.
  csimpl. f_equal; [|apply IH; simpl in Hlen; lia].
  unfold cell. by rewrite lookup_insert_eq.
Qed.

Ltac track_column d k v L c :=
  first [ pose proof (setitem_column d k v c ltac:(discriminate) L)
        | pose proof (setitem_same d k v c eq_refl L) ].

Ltac step_columns H :=
  match type of H with
  | context [setitem ?d ?k ?v] =>
      lazymatch d with context [setitem _ _ _] => fail | _ => idtac end;
      let L := fresh "L" in
      assert (length v = length (records d)) as L
        by (rewrite ?length_fmap; congruence);
      track_column d k v L "name"; track_column d k v L "area_km2";
      track_column d k v L "population"; track_column d k v L "gdp_bd";
      track_column d k v L "flag_image"; track_column d k v L "wikipedia";
      track_column d k v L "wikidata_id"; track_column d k v L "country";
      apply (setitem_length d k v) in L;
      let d' := fresh "df" in
      set (d' := setitem d k v) in *
  end.

(** The formatted table, column by column, as a function of the raw
    table: [name] is the label, the area, population and GDP columns are
    the formatted values of the raw columns, the flag and the page lose
    their prefix and are unquoted, [wikidata_id] is the entity without
    its prefix. *)
Theorem render_columns unquote df df' :
  render unquote df = Ok df' →
  let col c (d : DataFrame) := (λ r, cell r c) <$> records d in
  col "name" df' = col "countryLabel" df
  ∧ format_area (col "area_km2" df) = Ok (col "area_km2" df')
  ∧ mapM format_population (col "population" df) = Ok (col "population" df')
  ∧ mapM format_gdp (col "gdp_bd" df) = Ok (col "gdp_bd" df')
  ∧ col "flag_image" df'
    = (λ v, unquote (str_remove commons_prefix v)) <$> col "flag_image" df
  ∧ col "wikipedia" df'
    = (λ v, unquote (str_remove "https://en.wikipedia.org/wiki/" v))
        <$> col "wikipedia" df
  ∧ col "wikidata_id" df'
    = str_remove "http://www.wikidata.org/entity/" <$> col "country" df.
Proof.
  unfold render. intros H. cbn zeta.
  repeat match goal with
    | H : mbind _ _ = Ok _ |- _ =>
        let col := fresh "col" in
        let Hcol := fresh "Hcol" in
        apply bind_Ok in H as (col & Hcol & H);
        first [ pose proof (getitem_length _ _ _ Hcol);
                apply getitem_Ok in Hcol as [Hcol _]
              | pose proof (format_area_length _ _ Hcol)
              | pose proof (mapM_length _ _ _ Hcol) ];
        try step_columns H
    end.
  inv_res. repeat split; congruence.
Qed.
